(** * The AI-agent page: query dispatch and streamed-answer assembly

    A shallow embedding of [src/app/ai-agent/page.jsx]: the symbol table and
    [extractCryptoSymbol], and the handlers of the [AIResponse] component
    ([handleQuery], [fetchCryptoPrice], [handleConnect], [handleOllamaQuery]).

    The handlers are written over an explicit component state; what the
    wallet, the price service and the inference service answer is an input
    ([World]).  The parts of the JavaScript runtime the handlers call
    (string methods, the regular expression of [extractCryptoSymbol],
    [TextDecoder], [JSON.parse], the conversions to string and to boolean)
    are modelled in the first half of the file. *)

From Stdlib Require Import List NArith ZArith String Ascii Bool Lia.
From Stdlib Require Import Strings.Byte.
Import ListNotations.

(** ** Strings

    A JavaScript string is a sequence of UTF-16 code units. *)

Definition jsstring := list N.

(** The string with the code units of the 8-bit characters of [s]. *)
Definition js (s : string) : jsstring :=
  map N_of_ascii (list_ascii_of_string s).

(** As [js], with every apostrophe of [s] standing for a quotation mark
    (U+0022): [jq "{'a':1}"] is the JSON text of an object with key [a]. *)
Definition jq (s : string) : jsstring :=
  map (fun c => if N.eqb c 39 then 34%N else c) (js s).

(** The UTF-8 bytes of a string of ASCII characters. *)
Definition bytes_of (s : jsstring) : list byte :=
  map (fun c => match Byte.of_N c with Some b => b | None => x00 end) s.

Fixpoint str_eqb (a b : jsstring) : bool :=
  match a, b with
  | [], [] => true
  | x :: a', y :: b' => N.eqb x y && str_eqb a' b'
  | _, _ => false
  end.

(** [s.length === 0], which is what [!s] tests on a string. *)
Definition is_empty (s : jsstring) : bool :=
  match s with [] => true | _ => false end.

(** *** [String.prototype.trim]

    WhiteSpace and LineTerminator code points of ECMAScript. *)
Definition is_js_space (c : N) : bool :=
  ((9 <=? c) && (c <=? 13) || (c =? 32) || (c =? 160) || (c =? 5760)
   || (8192 <=? c) && (c <=? 8202) || (c =? 8232) || (c =? 8233)
   || (c =? 8239) || (c =? 8287) || (c =? 12288) || (c =? 65279))%N.

Fixpoint trim_start (s : jsstring) : jsstring :=
  match s with
  | c :: s' => if is_js_space c then trim_start s' else s
  | [] => []
  end.

Definition trim (s : jsstring) : jsstring :=
  rev (trim_start (rev (trim_start s))).

(** *** [String.prototype.toLowerCase]

    Given on the code units below U+0100 (ASCII and Latin-1, which the
    mapping sends to itself); the case tables of the rest of Unicode are not
    part of the model and those units are kept.  [handleQuery] only compares
    the result with the ASCII literals ['connect'] and ['price of'], and no
    character from U+0100 on lowers to a text that can complete either. *)
Definition lower_unit (c : N) : N :=
  (if (65 <=? c) && (c <=? 90) then c + 32
   else if (192 <=? c) && (c <=? 222) && negb (c =? 215) then c + 32
   else c)%N.

Definition toLowerCase (s : jsstring) : jsstring := map lower_unit s.

(** *** [String.prototype.includes] *)
Fixpoint starts_with (p s : jsstring) : bool :=
  match p, s with
  | [], _ => true
  | x :: p', y :: s' => N.eqb x y && starts_with p' s'
  | _ :: _, [] => false
  end.

Fixpoint includes (s p : jsstring) : bool :=
  starts_with p s ||
  match s with
  | [] => false
  | _ :: s' => includes s' p
  end.

(** ** Numbers

    A Number is an IEEE 754 binary64 value; NaN cannot come out of a JSON
    text and is left out.  [Fin neg m e] is [(-1)^neg * m * 2^e] with
    [0 < m < 2^53] and [-1074 <= e <= 971], and [2^52 <= m] unless
    [e = -1074]. *)
Module Num.

Local Open Scope Z_scope.

Inductive f64 : Type :=
| Zero (neg : bool)
| Inf (neg : bool)
| Fin (neg : bool) (m e : Z).

(** The integer nearest to [p / q], ties to even ([0 <= p], [0 < q]). *)
Definition round_half_even (p q : Z) : Z :=
  let d := p / q in
  match 2 * (p mod q) ?= q with
  | Lt => d
  | Gt => d + 1
  | Eq => if Z.even d then d else d + 1
  end.

(** [p / q / 2^e] as a fraction. *)
Definition scale2 (p q e : Z) : Z * Z :=
  if 0 <=? e then (p, q * 2 ^ e) else (p * 2 ^ (- e), q).

(** [floor (log2 (p / q))] for [0 < p], [0 < q]. *)
Definition floor_log2 (p q : Z) : Z :=
  let l := Z.log2 p - Z.log2 q in
  let '(p', q') := scale2 p q l in
  if p' <? q' then l - 1 else l.

(** The binary64 value nearest to [p / q] (round to nearest, ties to even),
    for [0 <= p] and [0 < q]. *)
Definition of_fraction (neg : bool) (p q : Z) : f64 :=
  if p =? 0 then Zero neg
  else
    let e := Z.max (floor_log2 p q - 52) (-1074) in
    let '(p', q') := scale2 p q e in
    let m := round_half_even p' q' in
    if m =? 0 then Zero neg
    else
      let '(m, e) := if m =? 2 ^ 53 then (2 ^ 52, e + 1) else (m, e) in
      if 971 <? e then Inf neg else Fin neg m e.

(** The value of a decimal literal: [(-1)^neg * m * 10^e]. *)
Definition of_decimal (neg : bool) (m e : Z) : f64 :=
  if 0 <=? e then of_fraction neg (m * 10 ^ e) 1
  else of_fraction neg m (10 ^ (- e)).

(** ToBoolean of a Number. *)
Definition toBoolean (x : f64) : bool :=
  match x with Zero _ => false | _ => true end.

(** *** Number::toString, radix 10 *)

Fixpoint uint_units (d : Decimal.uint) : jsstring :=
  match d with
  | Decimal.Nil => []
  | Decimal.D0 d => 48%N :: uint_units d
  | Decimal.D1 d => 49%N :: uint_units d
  | Decimal.D2 d => 50%N :: uint_units d
  | Decimal.D3 d => 51%N :: uint_units d
  | Decimal.D4 d => 52%N :: uint_units d
  | Decimal.D5 d => 53%N :: uint_units d
  | Decimal.D6 d => 54%N :: uint_units d
  | Decimal.D7 d => 55%N :: uint_units d
  | Decimal.D8 d => 56%N :: uint_units d
  | Decimal.D9 d => 57%N :: uint_units d
  end.

(** The decimal digits of a natural number, as characters. *)
Definition digits_of (z : Z) : jsstring := uint_units (N.to_uint (Z.to_N z)).

Definition zeros (n : Z) : jsstring := repeat 48%N (Z.to_nat n).

(** [n0] with [10^(n0-1) <= m * 2^e < 10^n0], read off the digits of
    [floor (m * 2^e * 10^400)], which is at least 1 for every binary64. *)
Definition magnitude (m e : Z) : Z :=
  let '(p, q) := scale2 (m * 10 ^ 400) 1 (- e) in
  Z.of_nat (List.length (digits_of (p / q))) - 400.

(** [s * 10^x] is read back as [Fin _ m e]. *)
Definition reads_back (m e s x : Z) : bool :=
  match of_decimal false s x with
  | Fin _ m' e' => (m' =? m) && (e' =? e)
  | _ => false
  end.

(** The distance of [s * 10^x] from [m * 2^e], times a positive factor that
    depends on [m], [e] and [x] only: it orders candidates with the same [x]. *)
Definition distance (m e s x : Z) : Z :=
  let '(xp, xq) := scale2 m 1 (- e) in
  let '(sp, sq) := if 0 <=? x then (s * 10 ^ x, 1) else (s, 10 ^ (- x)) in
  Z.abs (sp * xq - xp * sq).

(** The candidate with [k] digits, if there is one: the digits [s] and the
    exponent [n] of ECMAScript's Number::toString. *)
Definition candidate (m e n0 k : Z) : option (Z * Z) :=
  let x := n0 - k in
  let '(p, q) := scale2 m 1 (- e) in
  let '(p, q) := if 0 <=? x then (p, q * 10 ^ x) else (p * 10 ^ (- x), q) in
  let lo := p / q in
  let hi := lo + 1 in
  let pick s := if s =? 10 ^ k then Some (10 ^ (k - 1), n0 + 1) else Some (s, n0) in
  match reads_back m e lo x, reads_back m e hi x with
  | true, false => pick lo
  | false, true => pick hi
  | true, true =>
      match distance m e lo x ?= distance m e hi x with
      | Lt => pick lo
      | Gt => pick hi
      | Eq => if Z.even lo then pick lo else pick hi
      end
  | false, false => None
  end.

Fixpoint shortest (m e n0 : Z) (k : Z) (fuel : nat) : Z * Z :=
  match fuel with
  | O => (m, 0)
  | S fuel' =>
      match candidate m e n0 k with
      | Some r => r
      | None => shortest m e n0 (k + 1) fuel'
      end
  end.

Fixpoint strip_zeros_rev (r : jsstring) : jsstring :=
  match r with
  | 48%N :: r' => strip_zeros_rev r'
  | _ => r
  end.

Definition format (ds : jsstring) (n : Z) : jsstring :=
  let k := Z.of_nat (List.length ds) in
  if (k <=? n) && (n <=? 21) then ds ++ zeros (n - k)
  else if (0 <? n) && (n <=? 21) then
    firstn (Z.to_nat n) ds ++ [46%N] ++ skipn (Z.to_nat n) ds
  else if (-6 <? n) && (n <=? 0) then
    [48%N; 46%N] ++ zeros (- n) ++ ds
  else
    let ex := [101%N] ++ (if 0 <=? n - 1 then [43%N] else [45%N])
              ++ digits_of (Z.abs (n - 1)) in
    match ds with
    | [d] => d :: ex
    | d :: rest => d :: 46%N :: rest ++ ex
    | [] => ex
    end.

Definition toString (x : f64) : jsstring :=
  match x with
  | Zero _ => [48%N]
  | Inf neg => (if neg then [45%N] else []) ++ js "Infinity"
  | Fin neg m e =>
      let '(s, n) := shortest m e (magnitude m e) 1 17 in
      let ds := rev (strip_zeros_rev (rev (digits_of s))) in
      (if neg then [45%N] else []) ++ format ds n
  end.

End Num.

(** ** Values

    What a JSON text denotes, [undefined], and the members of
    [Object.prototype] that a property read on a plain object can reach. *)

Inductive native : Type :=
| ObjectConstructor                 (* the function Object *)
| ObjectPrototype                   (* Object.prototype *)
| ObjectMethod (name : jsstring).   (* Object.prototype.hasOwnProperty, ... *)

#[warnings="-register-all"]
Inductive value : Type :=
| VUndefined
| VNull
| VBool (b : bool)
| VNum (x : Num.f64)
| VStr (s : jsstring)
| VArr (l : list value)
| VObj (m : list (jsstring * value))
| VNative (f : native).

Inductive error : Type :=
| SyntaxError
| TypeError
| Rejection (reason : jsstring).   (* a rejected promise of a collaborator *)

(** The outcome of evaluating an expression or a block. *)
Inductive completion (A : Type) : Type :=
| Normal (a : A)
| Throw (e : error).

Arguments Normal {A} a.
Arguments Throw {A} e.

Definition bind {A B : Type} (c : completion A) (k : A -> completion B)
  : completion B :=
  match c with
  | Normal a => k a
  | Throw e => Throw e
  end.

Notation "'let*' x ':=' c 'in' k" := (bind c (fun x => k))
  (at level 10, x name, c at level 100, k at level 200).

(** ToBoolean. *)
Definition truthy (v : value) : bool :=
  match v with
  | VUndefined | VNull => false
  | VBool b => b
  | VNum x => Num.toBoolean x
  | VStr s => negb (is_empty s)
  | VArr _ | VObj _ | VNative _ => true
  end.

(** [a || b]. *)
Definition or_else (a b : value) : value := if truthy a then a else b.

(** The own property [k] of an object whose properties are listed in the
    order they were written; a later duplicate overrides an earlier one. *)
Fixpoint own (m : list (jsstring * value)) (k : jsstring) : option value :=
  match m with
  | [] => None
  | (k', v) :: m' =>
      match own m' k with
      | Some v' => Some v'
      | None => if str_eqb k' k then Some v else None
      end
  end.

Definition object_methods : list jsstring :=
  map js ["hasOwnProperty"; "isPrototypeOf"; "propertyIsEnumerable";
          "toLocaleString"; "toString"; "valueOf";
          "__defineGetter__"; "__defineSetter__";
          "__lookupGetter__"; "__lookupSetter__"]%string.

(** The property [k] that a plain object inherits from [Object.prototype]
    ([__proto__] is the accessor, read on an object whose prototype is
    [Object.prototype]). *)
Definition object_prototype (k : jsstring) : value :=
  if str_eqb k (js "constructor") then VNative ObjectConstructor
  else if str_eqb k (js "__proto__") then VNative ObjectPrototype
  else if existsb (str_eqb k) object_methods then VNative (ObjectMethod k)
  else VUndefined.

(** [o[k]] for a plain object [o] (an object literal, or an object of a
    JSON text) with own properties [m]. *)
Definition obj_get (m : list (jsstring * value)) (k : jsstring) : value :=
  match own m k with
  | Some v => v
  | None => object_prototype k
  end.

(** [v.k] for a key [k] that names no property of the built-in objects, as
    are the two keys the handlers read this way, [response] and [usd]:
    reading [null] or [undefined] throws, a plain object is searched, and no
    other value has the property. *)
Definition get_field (v : value) (k : jsstring) : completion value :=
  match v with
  | VUndefined | VNull => Throw TypeError
  | VObj m => Normal (obj_get m k)
  | _ => Normal VUndefined
  end.

Definition native_toString (f : native) : jsstring :=
  match f with
  | ObjectConstructor => js "function Object() { [native code] }"
  | ObjectPrototype => js "[object Object]"
  | ObjectMethod name => js "function " ++ name ++ js "() { [native code] }"
  end.

(** ToString, as string concatenation and template literals apply it.  A
    plain object is converted by the inherited [toString]; an own property
    of that name (never callable in a value of a JSON text) hides it, and
    the conversion throws.  An array is joined with commas. *)
Fixpoint ToString (v : value) : completion jsstring :=
  match v with
  | VUndefined => Normal (js "undefined")
  | VNull => Normal (js "null")
  | VBool b => Normal (js (if b then "true" else "false"))
  | VNum x => Normal (Num.toString x)
  | VStr s => Normal s
  | VArr l =>
      (fix join (l : list value) (first : bool) : completion jsstring :=
         match l with
         | [] => Normal []
         | x :: l' =>
             let* sx := match x with
                        | VUndefined | VNull => Normal []
                        | _ => ToString x
                        end in
             let* sl := join l' false in
             Normal ((if first then [] else [44%N]) ++ sx ++ sl)
         end) l true
  | VObj m =>
      match own m (js "toString") with
      | Some _ => Throw TypeError
      | None => Normal (js "[object Object]")
      end
  | VNative f => Normal (native_toString f)
  end.

(** ** [JSON.parse]

    The JSON grammar of ECMA-404, by recursive descent over the code units
    of the text.  Nested values are parsed under a fuel that [parse] sets
    from the length of the text ([parse_value_fuel] shows it is enough). *)
Module JSON.

Local Open Scope N_scope.

Inductive presult (A : Type) : Type :=
| POk (a : A) (rest : jsstring)
| PErr
| PFuel.

Arguments POk {A} a rest.
Arguments PErr {A}.
Arguments PFuel {A}.

Definition is_ws (c : N) : bool :=
  (c =? 9) || (c =? 10) || (c =? 13) || (c =? 32).

Fixpoint skip_ws (s : jsstring) : jsstring :=
  match s with
  | c :: s' => if is_ws c then skip_ws s' else s
  | [] => []
  end.

Definition is_digit (c : N) : bool := (48 <=? c) && (c <=? 57).

(** The digits at the head of [s], added to the number [acc]; how many
    there are, added to [cnt]; and what follows them. *)
Fixpoint lex_digits (s : jsstring) (acc cnt : Z) : Z * Z * jsstring :=
  match s with
  | c :: s' =>
      if is_digit c
      then lex_digits s' (10 * acc + Z.of_N (c - 48))%Z (cnt + 1)%Z
      else (acc, cnt, s)
  | [] => (acc, cnt, [])
  end.

(** int: [0], or a non-zero digit and digits. *)
Definition lex_int (s : jsstring) : option (Z * jsstring) :=
  match s with
  | c :: s' =>
      if c =? 48 then Some (0%Z, s')
      else if is_digit c
           then let '(m, _, r) := lex_digits s 0 0 in Some (m, r)
           else None
  | [] => None
  end.

(** frac: nothing, or a point and one digit at least; the digits are
    appended to [m]. *)
Definition lex_frac (m : Z) (s : jsstring) : option (Z * Z * jsstring) :=
  match s with
  | c :: s' =>
      if c =? 46 then
        let '(m', cnt, r) := lex_digits s' m 0 in
        if (cnt =? 0)%Z then None else Some (m', cnt, r)
      else Some (m, 0%Z, s)
  | [] => Some (m, 0%Z, s)
  end.

Definition lex_unsigned (neg : bool) (s : jsstring) : option (Z * jsstring) :=
  let '(x, cnt, r) := lex_digits s 0 0 in
  if (cnt =? 0)%Z then None else Some (if neg then (- x)%Z else x, r).

(** exp: nothing, or [e] or [E], a sign or none, and one digit at least. *)
Definition lex_exp (s : jsstring) : option (Z * jsstring) :=
  match s with
  | c :: s' =>
      if (c =? 69) || (c =? 101) then
        match s' with
        | d :: s'' =>
            if d =? 43 then lex_unsigned false s''
            else if d =? 45 then lex_unsigned true s''
            else lex_unsigned false s'
        | [] => None
        end
      else Some (0%Z, s)
  | [] => Some (0%Z, s)
  end.

Definition lex_sign (s : jsstring) : bool * jsstring :=
  match s with
  | c :: s' => if c =? 45 then (true, s') else (false, s)
  | [] => (false, s)
  end.

Definition lex_number (s : jsstring) : presult value :=
  let '(neg, s1) := lex_sign s in
  match lex_int s1 with
  | None => PErr
  | Some (m, s2) =>
      match lex_frac m s2 with
      | None => PErr
      | Some (m', cnt, s3) =>
          match lex_exp s3 with
          | None => PErr
          | Some (x, s4) => POk (VNum (Num.of_decimal neg m' (x - cnt))) s4
          end
      end
  end.

Definition hex_digit (c : N) : option N :=
  if is_digit c then Some (c - 48)
  else if (65 <=? c) && (c <=? 70) then Some (c - 55)
  else if (97 <=? c) && (c <=? 102) then Some (c - 87)
  else None.

Definition hex4 (a b c d : N) : option N :=
  match hex_digit a, hex_digit b, hex_digit c, hex_digit d with
  | Some a, Some b, Some c, Some d => Some (((a * 16 + b) * 16 + c) * 16 + d)
  | _, _, _, _ => None
  end.

(** The character that stands after a reverse solidus for itself or for a
    control character. *)
Definition simple_escape (c : N) : option N :=
  if (c =? 34) || (c =? 92) || (c =? 47) then Some c
  else if c =? 98 then Some 8
  else if c =? 102 then Some 12
  else if c =? 110 then Some 10
  else if c =? 114 then Some 13
  else if c =? 116 then Some 9
  else None.

(** The characters of a string after its opening quotation mark, up to the
    closing one; [acc] holds the characters read so far, last first. *)
Fixpoint lex_string (s : jsstring) (acc : jsstring) : presult jsstring :=
  match s with
  | [] => PErr
  | c :: s' =>
      if c =? 34 then POk (rev acc) s'
      else if c =? 92 then
        match s' with
        | [] => PErr
        | x :: r =>
            if x =? 117 then
              match r with
              | a :: b :: c :: d :: r' =>
                  match hex4 a b c d with
                  | Some u => lex_string r' (u :: acc)
                  | None => PErr
                  end
              | _ => PErr
              end
            else
              match simple_escape x with
              | Some u => lex_string r (u :: acc)
              | None => PErr
              end
        end
      else if c <? 32 then PErr
      else lex_string s' (c :: acc)
  end.

Definition lex_literal (word : jsstring) (v : value) (s : jsstring)
  : presult value :=
  if starts_with word s then POk v (skipn (List.length word) s) else PErr.

(** A value that is neither an object nor an array. *)
Definition lex_scalar (s : jsstring) : presult value :=
  match s with
  | c :: r =>
      if c =? 34 then
        match lex_string r [] with
        | POk str r' => POk (VStr str) r'
        | PErr => PErr
        | PFuel => PFuel
        end
      else if c =? 110 then lex_literal (js "null") VNull s
      else if c =? 116 then lex_literal (js "true") (VBool true) s
      else if c =? 102 then lex_literal (js "false") (VBool false) s
      else lex_number s
  | [] => PErr
  end.

(** Whether the text opens with the character [c]. *)
Definition opens_with (c : N) (s : jsstring) : option jsstring :=
  match s with
  | x :: r => if x =? c then Some r else None
  | [] => None
  end.

Fixpoint parse_value (fuel : nat) (s : jsstring) : presult value :=
  match fuel with
  | O => PFuel
  | S fuel' =>
      match opens_with 123 (skip_ws s) with               (* { *)
      | Some r =>
          match opens_with 125 (skip_ws r) with
          | Some r' => POk (VObj []) r'
          | None => parse_members fuel' r []
          end
      | None =>
          match opens_with 91 (skip_ws s) with            (* [ *)
          | Some r =>
              match opens_with 93 (skip_ws r) with
              | Some r' => POk (VArr []) r'
              | None => parse_elements fuel' r []
              end
          | None => lex_scalar (skip_ws s)
          end
      end
  end

(** The elements of an array from the one at the head of [s] on; [acc] holds
    the elements read so far, last first. *)
with parse_elements (fuel : nat) (s : jsstring) (acc : list value)
  : presult value :=
  match fuel with
  | O => PFuel
  | S fuel' =>
      match parse_value fuel' s with
      | POk v r =>
          match opens_with 44 (skip_ws r) with
          | Some r' => parse_elements fuel' r' (v :: acc)
          | None =>
              match opens_with 93 (skip_ws r) with
              | Some r' => POk (VArr (rev (v :: acc))) r'
              | None => PErr
              end
          end
      | PErr => PErr
      | PFuel => PFuel
      end
  end

(** The members of an object from the one at the head of [s] on. *)
with parse_members (fuel : nat) (s : jsstring)
       (acc : list (jsstring * value)) : presult value :=
  match fuel with
  | O => PFuel
  | S fuel' =>
      match opens_with 34 (skip_ws s) with
      | None => PErr
      | Some r =>
          match lex_string r [] with
          | POk k r1 =>
              match opens_with 58 (skip_ws r1) with
              | None => PErr
              | Some r2 =>
                  match parse_value fuel' r2 with
                  | POk v r3 =>
                      match opens_with 44 (skip_ws r3) with
                      | Some r4 => parse_members fuel' r4 ((k, v) :: acc)
                      | None =>
                          match opens_with 125 (skip_ws r3) with
                          | Some r4 => POk (VObj (rev ((k, v) :: acc))) r4
                          | None => PErr
                          end
                      end
                  | PErr => PErr
                  | PFuel => PFuel
                  end
              end
          | _ => PErr
          end
      end
  end.

(** [JSON.parse(text)]: one value, white space around it allowed, nothing
    else; a SyntaxError otherwise. *)
Definition parse (text : jsstring) : completion value :=
  match parse_value (2 * List.length text + 1) text with
  | POk v rest => if is_empty (skip_ws rest) then Normal v else Throw SyntaxError
  | _ => Throw SyntaxError
  end.

End JSON.

(** ** [TextDecoder]

    [new TextDecoder('utf-8').decode(bytes)], called without the [stream]
    option: every call decodes its bytes from a fresh state, and a sequence
    that the bytes leave unfinished becomes U+FFFD.  The decoder is the one
    of the WHATWG Encoding standard. *)
Module TextDecoder.

Local Open Scope N_scope.

Record state : Type := mkState
  { code_point : N; needed : N; seen : N; lower : N; upper : N }.

Definition fresh : state := mkState 0 0 0 0x80 0xBF.

(** A byte read when no sequence is open. *)
Definition lead (b : N) : list N * state :=
  if b <=? 0x7F then ([b], fresh)
  else if (0xC2 <=? b) && (b <=? 0xDF) then
    ([], mkState (N.land b 0x1F) 1 0 0x80 0xBF)
  else if (0xE0 <=? b) && (b <=? 0xEF) then
    ([], mkState (N.land b 0xF) 2 0
           (if b =? 0xE0 then 0xA0 else 0x80)
           (if b =? 0xED then 0x9F else 0xBF))
  else if (0xF0 <=? b) && (b <=? 0xF4) then
    ([], mkState (N.land b 0x7) 3 0
           (if b =? 0xF0 then 0x90 else 0x80)
           (if b =? 0xF4 then 0x8F else 0xBF))
  else ([0xFFFD], fresh).

(** One byte: the code points it completes, and the next state.  A byte that
    cannot continue the open sequence closes it with U+FFFD and is read
    again as a first byte. *)
Definition step (st : state) (b : N) : list N * state :=
  if needed st =? 0 then lead b
  else if negb ((lower st <=? b) && (b <=? upper st)) then
    let '(out, st') := lead b in (0xFFFD :: out, st')
  else
    let cp := N.lor (N.shiftl (code_point st) 6) (N.land b 0x3F) in
    if seen st + 1 =? needed st then ([cp], fresh)
    else ([], mkState cp (needed st) (seen st + 1) 0x80 0xBF).

Fixpoint run (st : state) (bytes : list byte) : list N :=
  match bytes with
  | [] => if needed st =? 0 then [] else [0xFFFD]
  | b :: bytes' =>
      let '(out, st') := step st (Byte.to_N b) in out ++ run st' bytes'
  end.

(** The code units of a code point. *)
Definition utf16 (cp : N) : jsstring :=
  if cp <? 0x10000 then [cp]
  else [0xD800 + (cp - 0x10000) / 0x400; 0xDC00 + (cp - 0x10000) mod 0x400].

(** A byte order mark at the head of the bytes is dropped. *)
Definition decode (bytes : list byte) : jsstring :=
  flat_map utf16
    match run fresh bytes with
    | 0xFEFF :: cps => cps
    | cps => cps
    end.

End TextDecoder.

(** * The page *)

(** ** The symbol table and [extractCryptoSymbol] *)

Definition cryptoSymbolMappings : list (jsstring * value) :=
  [ (js "btc", VStr (js "bitcoin"));
    (js "eth", VStr (js "ethereum"));
    (js "doge", VStr (js "dogecoin"));
    (js "ada", VStr (js "cardano"));
    (js "xrp", VStr (js "ripple"));
    (js "matic", VStr (js "polygon"));
    (js "sol", VStr (js "solana"));
    (js "bnb", VStr (js "binancecoin"));
    (js "dot", VStr (js "polkadot")) ].

(** The class [\w]: letters, digits and the underscore of ASCII. *)
Definition is_word (c : N) : bool :=
  ((48 <=? c) && (c <=? 57) || (65 <=? c) && (c <=? 90)
   || (97 <=? c) && (c <=? 122) || (c =? 95))%N.

(** A character of the pattern against a character of the text under the
    [i] flag (without [u]): the two cases of an ASCII letter match each
    other, and no character outside ASCII is folded onto an ASCII one. *)
Definition eq_ignore_case (p c : N) : bool :=
  let fold x := (if (97 <=? x) && (x <=? 122) then x - 32 else x)%N in
  N.eqb (fold p) (fold c).

Fixpoint starts_with_i (p s : jsstring) : bool :=
  match p, s with
  | [], _ => true
  | x :: p', y :: s' => eq_ignore_case x y && starts_with_i p' s'
  | _ :: _, [] => false
  end.

Fixpoint take_word (s : jsstring) : jsstring :=
  match s with
  | c :: s' => if is_word c then c :: take_word s' else []
  | [] => []
  end.

(** [query.match(/price of (\w+)/i)]: the group [match[1]] of the leftmost
    match, or [None] when there is no match. *)
Fixpoint match_price_of (s : jsstring) : option jsstring :=
  let here :=
    if starts_with_i (js "price of ") s
    then match take_word (skipn 9 s) with
         | [] => None
         | w => Some w
         end
    else None in
  match here, s with
  | Some w, _ => Some w
  | None, _ :: s' => match_price_of s'
  | None, [] => None
  end.

(** Lines 61-62: the lookup of the lower-cased token, with the token as the
    default. *)
Definition resolveSymbol (token : jsstring) : value :=
  let userSymbol := toLowerCase token in
  or_else (obj_get cryptoSymbolMappings userSymbol) (VStr userSymbol).

Definition extractCryptoSymbol (query : jsstring) : value :=
  match match_price_of query with
  | None => VNull
  | Some m1 => resolveSymbol m1
  end.

(** ** The state of the component

    The state variables of [AIResponse] ([query] is an argument of
    [handleQuery]), the module variable [userAuthSig], and what the handlers
    have done so far, in order: the calls of the state setters with the
    value they set, and the lines written to the console. *)

Inductive Sender : Type := user | ai.

Record ChatMessage : Type := mkMsg { text : jsstring; sender : Sender }.

Inductive Event : Type :=
| SetLoading (b : bool)
| SetResponse (s : jsstring)
| SetChatHistory (log : list ChatMessage)
| ConsoleLog (line : jsstring)
| ConsoleError (line : jsstring) (e : option error).

Record State : Type := mkSt
  { response : jsstring;
    loading : bool;
    chatHistory : list ChatMessage;
    userAuthSig : option jsstring;
    events : list Event }.

Definition initial : State := mkSt [] false [] None [].

(** ** The collaborators

    What the wallet, the signing library, the price service and the
    inference service answer. *)

(** [window.ethereum.request({ method: 'eth_requestAccounts' })]. *)
Inductive RequestReply : Type :=
| RequestRejects (e : error)
| Accounts (accounts : list jsstring).

(** [LitJsSdk.checkAndSignAuthMessage({ chain: 'ethereum' })]. *)
Inductive SignReply : Type :=
| SignRejects (e : error)
| Signed (authSig : jsstring).

(** [axios.get(url)]: rejected (no answer, or a status outside 2xx), or a
    response whose [data] is the JSON object of the body, if any. *)
Inductive AxiosReply : Type :=
| AxiosRejects (e : error)
| AxiosResponse (data : option (list (jsstring * value))).

(** The body of a response of [fetch]: the chunks that [reader.read()]
    hands over one after the other, and how the reads end: the stream is
    done ([None]), or a read is rejected. *)
Record Body : Type := mkBody
  { chunks : list (list byte); failure : option error }.

(** [fetch(url, ...)]: rejected, or a response with its [ok] flag and its
    [body] ([null] when the response has none). *)
Inductive FetchReply : Type :=
| FetchRejects (e : error)
| FetchResponse (ok : bool) (body : option Body).

Record World : Type := mkWorld
  { ethereum : option RequestReply;          (* window.ethereum, if present *)
    checkAndSignAuthMessage : SignReply;
    axios_get : jsstring -> AxiosReply;      (* by URL *)
    generate : jsstring -> FetchReply }.     (* /api/generate, by prompt *)

(** ** Handlers as state transformers that may throw *)

Definition M (A : Type) : Type := State -> completion A * State.

Definition ret {A : Type} (a : A) : M A := fun st => (Normal a, st).

Definition throw {A : Type} (e : error) : M A := fun st => (Throw e, st).

Definition lift {A : Type} (c : completion A) : M A := fun st => (c, st).

Definition mbind {A B : Type} (c : M A) (k : A -> M B) : M B :=
  fun st =>
    match c st with
    | (Normal a, st') => k a st'
    | (Throw e, st') => (Throw e, st')
    end.

Notation "x <- c ;; k" := (mbind c (fun x => k))
  (at level 61, c at next level, right associativity).
Notation "c ;; k" := (mbind c (fun _ => k))
  (at level 61, right associativity).

(** [try { body } catch (error) { handler }]. *)
Definition try_catch {A : Type} (body : M A) (handler : error -> M A) : M A :=
  fun st =>
    match body st with
    | (Normal a, st') => (Normal a, st')
    | (Throw e, st') => handler e st'
    end.

(** [try { body } finally { final }]. *)
Definition try_finally {A : Type} (body : M A) (final : M unit) : M A :=
  fun st =>
    match body st with
    | (r, st') =>
        match final st' with
        | (Normal _, st'') => (r, st'')
        | (Throw e, st'') => (Throw e, st'')
        end
    end.

Definition emit (ev : Event) (st : State) : State :=
  mkSt (response st) (loading st) (chatHistory st) (userAuthSig st)
       (events st ++ [ev]).

Definition setLoading (b : bool) : M unit :=
  fun st =>
    (Normal tt,
     emit (SetLoading b)
       (mkSt (response st) b (chatHistory st) (userAuthSig st) (events st))).

(** [setResponse((prev) => f(prev))]. *)
Definition setResponseWith (f : jsstring -> jsstring) : M unit :=
  fun st =>
    (Normal tt,
     emit (SetResponse (f (response st)))
       (mkSt (f (response st)) (loading st) (chatHistory st) (userAuthSig st)
             (events st))).

Definition setResponse (s : jsstring) : M unit := setResponseWith (fun _ => s).

(** [setChatHistory((prev) => [...prev, msg])]. *)
Definition appendChat (msg : ChatMessage) : M unit :=
  fun st =>
    (Normal tt,
     emit (SetChatHistory (chatHistory st ++ [msg]))
       (mkSt (response st) (loading st) (chatHistory st ++ [msg])
             (userAuthSig st) (events st))).

Definition setUserAuthSig (sig : jsstring) : M unit :=
  fun st =>
    (Normal tt,
     mkSt (response st) (loading st) (chatHistory st) (Some sig) (events st)).

Definition console_log (line : jsstring) : M unit :=
  fun st => (Normal tt, emit (ConsoleLog line) st).

Definition console_error (line : jsstring) (e : option error) : M unit :=
  fun st => (Normal tt, emit (ConsoleError line e) st).

(** ** The handlers *)

(** Lines 106-108: the [catch] of [handleQuery]. *)
Definition onError (error : error) : M unit :=
  console_error (js "Error in AI query:") (Some error) ;;
  setResponse (js "Failed to get a response").

Section Handlers.

Variable w : World.

(** The marks U+274C and U+2705 that open the lines of [authenticateUser]. *)
Definition cross_mark : jsstring := [10060%N].
Definition check_mark : jsstring := [9989%N].

(** Lines 29-43.  The result of the function is not used by its caller. *)
Definition authenticateUser : M unit :=
  try_catch
    (match ethereum w with
     | None =>
         console_error (cross_mark ++ js " Ethereum provider is not available")
           None
     | Some _ =>
         authSig <- match checkAndSignAuthMessage w with
                    | SignRejects e => throw e
                    | Signed sig => ret sig
                    end ;;
         setUserAuthSig authSig ;;
         console_log (check_mark ++ js " User authenticated successfully!")
     end)
    (fun error =>
       console_error (cross_mark ++ js " Error authenticating user:")
         (Some error)).

(** Lines 115-127. *)
Definition price_url (symbol : jsstring) : jsstring :=
  js "https://api.coingecko.com/api/v3/simple/price?ids=" ++ symbol
  ++ js "&vs_currencies=usd".

Definition fetchCryptoPrice (symbol : value) : M value :=
  try_catch
    (id <- lift (ToString symbol) ;;
     data <- match axios_get w (price_url id) with
             | AxiosRejects e => throw e
             | AxiosResponse data => ret data
             end ;;
     match data with
     | Some m =>
         if truthy (obj_get m id) then
           usd <- lift (get_field (obj_get m id) (js "usd")) ;;
           ret (or_else usd (VStr (js "Price not found")))
         else ret (VStr (js "Price not found"))
     | None => ret (VStr (js "Price not found"))
     end)
    (fun error =>
       console_error (js "Error fetching crypto price:") (Some error) ;;
       ret (VStr (js "Error fetching price"))).

(** Lines 130-152. *)
Definition handleConnect : M unit :=
  setResponse (js "Connecting to wallet...") ;;
  try_catch
    (match ethereum w with
     | None => setResponse (js "No Ethereum provider detected.")
     | Some reply =>
         accounts <- match reply with
                     | RequestRejects e => throw e
                     | Accounts l => ret l
                     end ;;
         match accounts with
         | [] => setResponse (js "No wallet connected")
         | connectedAddress :: _ =>
             setResponse (js "Connected to wallet: " ++ connectedAddress) ;;
             authenticateUser ;;
             setResponse (js "Connected to wallet: " ++ connectedAddress
                          ++ js " and authenticated successfully!")
         end
     end)
    (fun error =>
       setResponse (js "Failed to connect wallet or authenticate.") ;;
       console_error (js "Error connecting wallet or authenticating:")
         (Some error)).

(** Lines 174-181: one chunk of the stream.  The result is the new value of
    [fullResponse]. *)
Definition processChunk (value : list byte) (fullResponse : jsstring)
  : M jsstring :=
  let chunk := TextDecoder.decode value in
  try_catch
    (parsedChunk <- lift (JSON.parse chunk) ;;
     r <- lift (get_field parsedChunk (js "response")) ;;
     delta <- lift (ToString (or_else r (VStr []))) ;;
     setResponseWith (fun prev => prev ++ delta) ;;
     ret (fullResponse ++ delta))
    (fun error =>
       console_error (js "Error parsing chunk:") (Some error) ;;
       ret fullResponse).

(** Lines 171-182: the loop over the reads of a stream that ends. *)
Fixpoint readLoop (reads : list (list byte)) (failure : option error)
    (fullResponse : jsstring) : M jsstring :=
  match reads with
  | [] =>
      match failure with
      | None => ret fullResponse
      | Some e => throw e
      end
  | value :: reads' =>
      fullResponse' <- processChunk value fullResponse ;;
      readLoop reads' failure fullResponse'
  end.

(** Lines 155-187. *)
Definition handleOllamaQuery (query : jsstring) : M unit :=
  try_catch
    (apiResponse <- match generate w query with
                    | FetchRejects e => throw e
                    | FetchResponse ok body => ret (ok, body)
                    end ;;
     if negb (fst apiResponse) then setResponse (js "Failed to get AI response")
     else
       body <- match snd apiResponse with
               | None => throw TypeError
               | Some b => ret b
               end ;;
       fullResponse <- readLoop (chunks body) (failure body) [] ;;
       appendChat (mkMsg fullResponse ai))
    (fun error => setResponse (js "Failed to get a response from Ollama")).

(** The text of the answer to a price query (lines 97 and 100). *)
Definition price_message (cryptoSymbol cryptoPrice : value)
  : completion jsstring :=
  let* s := ToString cryptoSymbol in
  let* p := ToString cryptoPrice in
  Normal (js "The current price of " ++ s ++ js " is $" ++ p).

(** Lines 72-112. *)
Definition handleQuery (query : jsstring) : M unit :=
  try_finally
    (try_catch
       (setLoading true ;;
        setResponse [] ;;
        if is_empty (trim query) then
          setResponse (js "Please enter a query") ;;
          setLoading false
        else
          appendChat (mkMsg query user) ;;
          if str_eqb (toLowerCase query) (js "connect") then handleConnect
          else if includes (toLowerCase query) (js "price of") then
            let cryptoSymbol := extractCryptoSymbol query in
            if negb (truthy cryptoSymbol) then
              setResponse
                (js "Please provide a valid cryptocurrency name or symbol.") ;;
              setLoading false
            else
              cryptoPrice <- fetchCryptoPrice cryptoSymbol ;;
              msg <- lift (price_message cryptoSymbol cryptoPrice) ;;
              setResponse msg ;;
              msg' <- lift (price_message cryptoSymbol cryptoPrice) ;;
              appendChat (mkMsg msg' ai)
          else handleOllamaQuery query)
       onError)
    (setLoading false).

(** The state of the component once [handleQuery] has run on the text of
    the input box. *)
Definition submit (query : jsstring) (st : State) : State :=
  snd (handleQuery query st).

End Handlers.

(** ** What the statements below are about *)

(** The branch that [handleQuery] takes on a query (the tests of lines 76,
    84, 89 and 91, in their order), under the names the specification gives
    to the intents.  An [Invalid] query carries the message it is answered
    with. *)
Inductive Intent : Type :=
| Connect
| PriceQuery (symbol : value)
| GenericQuery (text : jsstring)
| Invalid (reason : jsstring).

Definition classify (query : jsstring) : Intent :=
  if is_empty (trim query) then Invalid (js "Please enter a query")
  else if str_eqb (toLowerCase query) (js "connect") then Connect
  else if includes (toLowerCase query) (js "price of") then
    if negb (truthy (extractCryptoSymbol query))
    then Invalid (js "Please provide a valid cryptocurrency name or symbol.")
    else PriceQuery (extractCryptoSymbol query)
  else GenericQuery query.

(** What the body of the [try] of lines 175-178 adds to [fullResponse] for
    one read, when it does not throw. *)
Definition chunkDelta (value : list byte) : completion jsstring :=
  let* parsedChunk := JSON.parse (TextDecoder.decode value) in
  let* r := get_field parsedChunk (js "response") in
  ToString (or_else r (VStr [])).

(** What one read contributes to the accumulated text. *)
Definition contribution (value : list byte) : jsstring :=
  match chunkDelta value with
  | Normal delta => delta
  | Throw _ => []
  end.

(** The entries of a log that a sender wrote. *)
Definition entries_of (who : Sender) (log : list ChatMessage)
  : list ChatMessage :=
  filter (fun m => match sender m, who with
                   | user, user | ai, ai => true
                   | _, _ => false
                   end) log.

(** The state that a computation leaves. *)
Definition run {A : Type} (m : M A) (st : State) : State := snd (m st).

(** A computation that does not throw. *)
Definition total {A : Type} (m : M A) : Prop :=
  forall st, exists a, fst (m st) = Normal a.

(** A computation that leaves the conversation log as it is. *)
Definition keeps_log {A : Type} (m : M A) : Prop :=
  forall st, chatHistory (snd (m st)) = chatHistory st.

(** The entry that [handleOllamaQuery] adds to the log for a reply of the
    inference service: the accumulated text of a stream that was opened and
    has ended, and nothing otherwise. *)
Definition answer (reply : FetchReply) : list ChatMessage :=
  match reply with
  | FetchResponse true (Some (mkBody reads None)) =>
      [mkMsg (List.concat (map contribution reads)) ai]
  | _ => []
  end.

(** The reply carries no price for the identifier: no body, no entry for
    the identifier, or an entry whose [usd] is missing or falsy. *)
Definition no_price (data : option (list (jsstring * value)))
    (id : jsstring) : Prop :=
  match data with
  | None => True
  | Some m =>
      truthy (obj_get m id) = false \/
      exists usd,
        get_field (obj_get m id) (js "usd") = Normal usd /\
        truthy usd = false
  end.

Definition price_text (id price : jsstring) : jsstring :=
  js "The current price of " ++ id ++ js " is $" ++ price.

(** A read whose text is valid JSON without a truthy [response], or is not
    JSON at all: the text does not parse, or parses to a value that is not
    an object, or to an object without a [response] property, or to an
    object whose [response] is falsy. *)
Definition without_response (value : list byte) : Prop :=
  (exists e, JSON.parse (TextDecoder.decode value) = Throw e) \/
  (exists v, JSON.parse (TextDecoder.decode value) = Normal v /\
             forall m, v <> VObj m) \/
  (exists m, JSON.parse (TextDecoder.decode value) = Normal (VObj m) /\
             own m (js "response") = None) \/
  (exists m r, JSON.parse (TextDecoder.decode value) = Normal (VObj m) /\
               own m (js "response") = Some r /\ truthy r = false).

(** ** Worlds and streams for the examples *)

Definition unreachable : error := Rejection (js "Network Error").

(** No wallet, and no service answers. *)
Definition offline : World :=
  mkWorld None (SignRejects unreachable)
    (fun _ => AxiosRejects unreachable) (fun _ => FetchRejects unreachable).

(** The price service answers with an object that quotes nothing. *)
Definition no_quote : World :=
  mkWorld None (SignRejects unreachable)
    (fun _ => AxiosResponse (Some [])) (fun _ => FetchRejects unreachable).

(** A wallet with one account, and a signature. *)
Definition wallet_ok : World :=
  mkWorld (Some (Accounts [js "0xabc"])) (Signed (js "sig"))
    (fun _ => AxiosRejects unreachable) (fun _ => FetchRejects unreachable).

(** The inference service answers every prompt with the given reads. *)
Definition streaming (reads : list (list byte)) : World :=
  mkWorld None (SignRejects unreachable)
    (fun _ => AxiosRejects unreachable)
    (fun _ => FetchResponse true (Some (mkBody reads None))).

Definition He : list byte := bytes_of (jq "{'response':'He'}").
Definition llo : list byte := bytes_of (jq "{'response':'llo'}").
Definition ok : list byte := bytes_of (jq "{'response':'ok'}").
Definition not_json : list byte := bytes_of (js "not-json").
Definition newline : list byte := [x0a].

(** [{"response":"é"}] in UTF-8, cut between the two bytes of the letter. *)
Definition e_acute_head : list byte := bytes_of (jq "{'response':'") ++ [xc3].
Definition e_acute_tail : list byte := [xa9] ++ bytes_of (jq "'}").

(** The price service quotes 67000.12 dollars for [bitcoin]. *)
Definition quoting : World :=
  mkWorld None (SignRejects unreachable)
    (fun _ =>
       AxiosResponse
         (Some [(js "bitcoin",
                 VObj [(js "usd", VNum (Num.of_decimal false 6700012 (-2)))])]))
    (fun _ => FetchRejects unreachable).

(** ** The rest of the page

    [connectLit] with its module variable, and the [CryptoDashboard]
    component: its three fetchers and [formatChartData]. *)

(** A submission after another: each click on Ask with the text of the
    input box and what the collaborators answer at that time. *)
Definition session (steps : list (World * jsstring)) (st : State) : State :=
  fold_left (fun st step => submit (fst step) (snd step) st) steps st.

(** The fragment [{"response":"s"}] for a text [s] written as it is. *)
Definition fragment (s : jsstring) : jsstring :=
  jq "{'response':'" ++ s ++ jq "'}".

(** A character that a JSON string holds as it is, in one byte of UTF-8:
    ASCII, no control character, no quotation mark, no reverse solidus. *)
Definition plain (c : N) : bool :=
  ((32 <=? c) && (c <? 128) && negb (c =? 34) && negb (c =? 92))%N.

(** The price service quotes, for [bitcoin], an object with a property
    [toString] in place of a number. *)
Definition odd_quote : World :=
  mkWorld None (SignRejects unreachable)
    (fun _ =>
       AxiosResponse
         (Some [(js "bitcoin",
                 VObj [(js "usd", VObj [(js "toString", VNull)])])]))
    (fun _ => FetchRejects unreachable).

(** The price service quotes zero dollars for [bitcoin]. *)
Definition zero_quote : World :=
  mkWorld None (SignRejects unreachable)
    (fun _ =>
       AxiosResponse
         (Some [(js "bitcoin",
                 VObj [(js "usd", VNum (Num.of_decimal false 0 0))])]))
    (fun _ => FetchRejects unreachable).

(** A wallet with one account whose owner refuses to sign. *)
Definition wallet_no_signature : World :=
  mkWorld (Some (Accounts [js "0xabc"])) (SignRejects unreachable)
    (fun _ => AxiosRejects unreachable) (fun _ => FetchRejects unreachable).

(** Whether a submission has a text to log. *)
Definition has_text (step : World * jsstring) : bool :=
  negb (is_empty (trim (snd step))).

(** A lower-case letter of ASCII, or a space: the characters of the
    pattern [price of ]. *)
Definition pattern_char (p : N) : Prop :=
  ((97 <= p)%N /\ (p <= 122)%N) \/ p = 32%N.

(** *** [connectLit] (lines 11-26)

    [litNodeClient] is [null] or a client; the lines of the console and the
    calls of [connect] on the client are recorded in order. *)
Inductive LitEvent : Type :=
| LitLog (line : jsstring)
| LitError (line : jsstring) (e : error)
| LitConnect.

Record LitState : Type := mkLit
  { litNodeClient : bool;            (* whether the variable holds a client *)
    lit_events : list LitEvent }.

(** One call of [connectLit]; [construct] is what
    [new LitJsSdk.LitNodeClient()] does ([None]: it returns a client) and
    [connect] what [litNodeClient.connect()] does ([None]: it resolves). *)
Definition connectLit (construct connect : option error) (st : LitState)
  : LitState :=
  if negb (litNodeClient st) then
    let st1 :=
      mkLit (litNodeClient st)
            (lit_events st
             ++ [LitLog (js "Attempting to connect to Lit Node...")]) in
    match construct with
    | Some e =>
        mkLit (litNodeClient st1)
              (lit_events st1
               ++ [LitError (cross_mark
                             ++ js " Error connecting to Lit Node:") e])
    | None =>
        let st2 := mkLit true (lit_events st1 ++ [LitConnect]) in
        match connect with
        | Some e =>
            mkLit (litNodeClient st2)
                  (lit_events st2
                   ++ [LitError (cross_mark
                                 ++ js " Error connecting to Lit Node:") e])
        | None =>
            mkLit (litNodeClient st2)
                  (lit_events st2
                   ++ [LitLog (check_mark
                               ++ js " Lit Node connected successfully!")])
        end
    end
  else st.

(** Calls of [connectLit] one after the other. *)
Definition connectLit_calls (calls : list (option error * option error))
    (st : LitState) : LitState :=
  fold_left (fun st call => connectLit (fst call) (snd call) st) calls st.

(** How often [connect] was called on a client. *)
Definition connect_count (st : LitState) : nat :=
  List.length
    (filter (fun ev => match ev with LitConnect => true | _ => false end)
       (lit_events st)).

(** *** [CryptoDashboard] (lines 227-298) *)

(** [axios.get(url, ...)] of the dashboard: rejected, or a response whose
    [data] is any value of a JSON text, or [undefined]. *)
Inductive DataReply : Type :=
| DataRejects (e : error)
| DataResponse (data : value).

Record DashState : Type := mkDash
  { cryptoData : value;
    topGainers : value;
    priceHistory : value;
    dash_loading : bool;
    dash_console : list (jsstring * error) }.

(** The state the component is mounted with (lines 228-231). *)
Definition dash_initial : DashState :=
  mkDash (VArr []) (VArr []) (VArr []) true [].

(** Lines 234-250. *)
Definition fetchCryptoData (reply : DataReply) (st : DashState) : DashState :=
  match reply with
  | DataResponse data =>
      mkDash data (topGainers st) (priceHistory st) false (dash_console st)
  | DataRejects e =>
      mkDash (cryptoData st) (topGainers st) (priceHistory st) false
             (dash_console st ++ [(js "Error fetching crypto data:", e)])
  end.

(** Lines 253-267. *)
Definition fetchTopGainers (reply : DataReply) (st : DashState) : DashState :=
  match reply with
  | DataResponse data =>
      mkDash (cryptoData st) data (priceHistory st) (dash_loading st)
             (dash_console st)
  | DataRejects e =>
      mkDash (cryptoData st) (topGainers st) (priceHistory st)
             (dash_loading st)
             (dash_console st ++ [(js "Error fetching top gainers:", e)])
  end.

(** Lines 270-283; [reply] is the answer for the URL of the symbol. *)
Definition fetchPriceHistory (reply : DataReply) (st : DashState)
  : DashState :=
  let failed e :=
    mkDash (cryptoData st) (topGainers st) (priceHistory st)
           (dash_loading st)
           (dash_console st ++ [(js "Error fetching price history:", e)]) in
  match reply with
  | DataResponse data =>
      match get_field data (js "prices") with
      | Normal prices =>
          mkDash (cryptoData st) (topGainers st) prices (dash_loading st)
                 (dash_console st)
      | Throw e => failed e
      end
  | DataRejects e => failed e
  end.

(** [item[i]] for the indices 0 and 1 that [formatChartData] reads. *)
Definition item_at (item : value) (i : nat) : completion value :=
  match item with
  | VUndefined | VNull => Throw TypeError
  | VArr l => Normal (nth i l VUndefined)
  | VStr s =>
      Normal match nth_error s i with
             | Some c => VStr [c]
             | None => VUndefined
             end
  | VObj m => Normal (obj_get m (Num.digits_of (Z.of_nat i)))
  | VBool _ | VNum _ | VNative _ => Normal VUndefined
  end.

Fixpoint map_completion {A B : Type} (f : A -> completion B) (l : list A)
  : completion (list B) :=
  match l with
  | [] => Normal []
  | x :: l' =>
      let* y := f x in
      let* ys := map_completion f l' in
      Normal (y :: ys)
  end.

(** The object that [formatChartData] returns. *)
Record Dataset : Type := mkDataset
  { ds_label : jsstring;
    ds_data : list value;
    borderColor : jsstring;
    tension : Num.f64;
    fill : bool }.

Record ChartData : Type := mkChart
  { labels : list jsstring; datasets : list Dataset }.

Section Chart.

(** [new Date(x).toLocaleDateString()], which depends on the locale of the
    browser. *)
Variable dateLabel : value -> completion jsstring.

(** Lines 286-296.  [data.map] exists on an array only. *)
Definition formatChartData (data : value) : completion ChartData :=
  match data with
  | VArr items =>
      let* ls := map_completion
                   (fun item => let* t := item_at item 0 in dateLabel t)
                   items in
      let* ps := map_completion (fun item => item_at item 1) items in
      Normal (mkChart ls
                [mkDataset (js "Price") ps (js "#00f")
                   (Num.of_decimal false 1 (-1)) false])
  | _ => Throw TypeError
  end.

End Chart.

(** The fields of the dashboard that are rendered. *)
Definition same_view (a b : DashState) : Prop :=
  cryptoData a = cryptoData b /\ topGainers a = topGainers b /\
  priceHistory a = priceHistory b /\ dash_loading a = dash_loading b.

(** * Properties *)

(** ** Strings *)

Lemma str_eqb_eq (a b : jsstring) : str_eqb a b = true <-> a = b.
Proof.
  revert b; induction a as [|x a IH]; intros [|y b]; simpl;
    try (split; discriminate); try tauto.
  rewrite andb_true_iff, N.eqb_eq, IH. split.
  - intros [-> ->]; reflexivity.
  - intros E; injection E; auto.
Qed.

Lemma str_eqb_refl (a : jsstring) : str_eqb a a = true.
Proof. apply str_eqb_eq; reflexivity. Qed.

Lemma str_eqb_neq (a b : jsstring) : str_eqb a b = false <-> a <> b.
Proof.
  rewrite <- str_eqb_eq. destruct (str_eqb a b); split; congruence.
Qed.

(** ** [JSON.parse] never runs out of fuel *)

Module JSONFacts.
Import JSON.

Lemma skip_ws_length (s : jsstring) :
  (List.length (skip_ws s) <= List.length s)%nat.
Proof.
  induction s as [|c s IH]; simpl; [lia|].
  destruct (is_ws c); simpl; lia.
Qed.

Lemma opens_with_length (c : N) (s r : jsstring) :
  opens_with c s = Some r -> List.length s = S (List.length r).
Proof.
  destruct s as [|x s]; simpl; [discriminate|].
  destruct (x =? c)%N; [|discriminate].
  intros E; injection E as <-; reflexivity.
Qed.

Lemma opens_after_ws (c : N) (s r : jsstring) :
  opens_with c (skip_ws s) = Some r ->
  (List.length r < List.length s)%nat.
Proof.
  intros E. apply opens_with_length in E.
  pose proof (skip_ws_length s). lia.
Qed.

Lemma lex_digits_length (s : jsstring) :
  forall acc cnt m c r,
    lex_digits s acc cnt = (m, c, r) ->
    (List.length r <= List.length s)%nat.
Proof.
  induction s as [|d s IH]; simpl; intros acc cnt m c r E.
  - injection E as _ _ <-; simpl; lia.
  - destruct (is_digit d).
    + apply IH in E; lia.
    + injection E as _ _ <-; simpl; lia.
Qed.

Lemma lex_int_length (s r : jsstring) (m : Z) :
  lex_int s = Some (m, r) -> (List.length r < List.length s)%nat.
Proof.
  destruct s as [|c s]; simpl; [discriminate|].
  destruct (c =? 48)%N.
  - intros E; injection E as _ <-; lia.
  - destruct (is_digit c) eqn:D; [|discriminate].
    destruct (lex_digits s _ _) as [[m' c'] r'] eqn:L.
    intros E; injection E as _ <-.
    apply lex_digits_length in L; lia.
Qed.

Lemma lex_frac_length (s r : jsstring) (m m' cnt : Z) :
  lex_frac m s = Some (m', cnt, r) -> (List.length r <= List.length s)%nat.
Proof.
  destruct s as [|c s]; simpl.
  - intros E; injection E as _ _ <-; simpl; lia.
  - destruct (c =? 46)%N.
    + destruct (lex_digits s m 0) as [[a b] r'] eqn:L.
      destruct (b =? 0)%Z; [discriminate|].
      intros E; injection E as _ _ <-.
      apply lex_digits_length in L; lia.
    + intros E; injection E as _ _ <-; simpl; lia.
Qed.

Lemma lex_unsigned_length (neg : bool) (s r : jsstring) (x : Z) :
  lex_unsigned neg s = Some (x, r) -> (List.length r <= List.length s)%nat.
Proof.
  unfold lex_unsigned.
  destruct (lex_digits s 0 0) as [[a b] r'] eqn:L.
  destruct (b =? 0)%Z; [discriminate|].
  intros E; injection E as _ <-.
  apply lex_digits_length in L; lia.
Qed.

Lemma lex_exp_length (s r : jsstring) (x : Z) :
  lex_exp s = Some (x, r) -> (List.length r <= List.length s)%nat.
Proof.
  destruct s as [|c s]; simpl.
  - intros E; injection E as _ <-; simpl; lia.
  - destruct ((c =? 69) || (c =? 101))%N.
    + destruct s as [|d s]; [discriminate|].
      destruct (d =? 43)%N; [|destruct (d =? 45)%N];
        intros E; apply lex_unsigned_length in E; simpl in *; lia.
    + intros E; injection E as _ <-; simpl; lia.
Qed.

Lemma lex_number_length (s r : jsstring) (v : value) :
  lex_number s = POk v r -> (List.length r < List.length s)%nat.
Proof.
  unfold lex_number.
  destruct (lex_sign s) as [neg s1] eqn:S1.
  assert (List.length s1 <= List.length s)%nat as H1.
  { destruct s as [|c s]; simpl in S1.
    - injection S1 as _ <-; lia.
    - destruct (c =? 45)%N; injection S1 as _ <-; simpl; lia. }
  destruct (lex_int s1) as [[m s2]|] eqn:I; [|discriminate].
  destruct (lex_frac m s2) as [[[m' cnt] s3]|] eqn:F; [|discriminate].
  destruct (lex_exp s3) as [[x s4]|] eqn:X; [|discriminate].
  intros E; injection E as _ <-.
  apply lex_int_length in I. apply lex_frac_length in F.
  apply lex_exp_length in X. lia.
Qed.

Lemma lex_number_fuel (s : jsstring) : lex_number s <> PFuel.
Proof.
  unfold lex_number.
  destruct (lex_sign s) as [neg s1].
  destruct (lex_int s1) as [[m s2]|]; [|discriminate].
  destruct (lex_frac m s2) as [[[m' cnt] s3]|]; [|discriminate].
  destruct (lex_exp s3) as [[x s4]|]; discriminate.
Qed.

Lemma lex_string_bound (n : nat) :
  forall s acc,
    (List.length s <= n)%nat ->
    lex_string s acc <> PFuel /\
    forall x r, lex_string s acc = POk x r ->
                (List.length r < List.length s)%nat.
Proof.
  induction n as [|n IH]; intros s acc Hn.
  - destruct s; [|simpl in Hn; lia]. simpl; split; [discriminate|discriminate].
  - destruct s as [|c s]; [simpl; split; discriminate|].
    simpl in Hn. cbn [lex_string].
    destruct (c =? 34)%N.
    { split; [discriminate|]. intros x r E; injection E as _ <-; simpl; lia. }
    destruct (c =? 92)%N.
    { destruct s as [|x s]; [split; discriminate|].
      destruct (x =? 117)%N.
      - destruct s as [|a [|b [|c' [|d s]]]]; try (split; discriminate).
        destruct (hex4 a b c' d) as [u|]; [|split; discriminate].
        destruct (IH s (u :: acc)) as [F L]; [simpl in Hn; lia|].
        split; [exact F|]. intros y r E. apply L in E. simpl; lia.
      - destruct (simple_escape x) as [u|]; [|split; discriminate].
        destruct (IH s (u :: acc)) as [F L]; [simpl in Hn; lia|].
        split; [exact F|]. intros y r E. apply L in E. simpl; lia. }
    destruct (c <? 32)%N; [split; discriminate|].
    destruct (IH s (c :: acc)) as [F L]; [lia|].
    split; [exact F|]. intros y r E. apply L in E. simpl; lia.
Qed.

Lemma lex_string_length (s acc x r : jsstring) :
  lex_string s acc = POk x r -> (List.length r < List.length s)%nat.
Proof.
  intros E.
  destruct (@lex_string_bound (List.length s) s acc (le_n _)) as [_ L].
  exact (L _ _ E).
Qed.

Lemma lex_string_fuel (s acc : jsstring) : lex_string s acc <> PFuel.
Proof.
  destruct (@lex_string_bound (List.length s) s acc (le_n _)) as [F _].
  exact F.
Qed.

Lemma starts_with_length (p s : jsstring) :
  starts_with p s = true -> (List.length p <= List.length s)%nat.
Proof.
  revert s; induction p as [|x p IH]; intros [|y s]; simpl;
    try lia; try discriminate.
  rewrite andb_true_iff. intros [_ H]. apply IH in H. lia.
Qed.

Lemma lex_literal_length (word s r : jsstring) (v v' : value) :
  word <> [] ->
  lex_literal word v s = POk v' r -> (List.length r < List.length s)%nat.
Proof.
  unfold lex_literal. intros Hw.
  destruct (starts_with word s) eqn:E; [|discriminate].
  intros R; injection R as _ <-.
  apply starts_with_length in E. rewrite length_skipn.
  destruct word; [congruence|]. simpl in *. lia.
Qed.

Lemma lex_scalar_length (s r : jsstring) (v : value) :
  lex_scalar s = POk v r -> (List.length r < List.length s)%nat.
Proof.
  destruct s as [|c s]; simpl; [discriminate|].
  destruct (c =? 34)%N.
  { destruct (lex_string s []) eqn:E; try discriminate.
    intros R; injection R as _ <-. apply lex_string_length in E. lia. }
  destruct (c =? 110)%N.
  { intros E. apply lex_literal_length in E; [exact E|discriminate]. }
  destruct (c =? 116)%N.
  { intros E. apply lex_literal_length in E; [exact E|discriminate]. }
  destruct (c =? 102)%N.
  { intros E. apply lex_literal_length in E; [exact E|discriminate]. }
  apply lex_number_length.
Qed.

Lemma lex_scalar_fuel (s : jsstring) : lex_scalar s <> PFuel.
Proof.
  destruct s as [|c s]; simpl; [discriminate|].
  destruct (c =? 34)%N.
  { pose proof (lex_string_fuel s []).
    destruct (lex_string s []); congruence. }
  unfold lex_literal.
  destruct (c =? 110)%N; [destruct (starts_with _ _); discriminate|].
  destruct (c =? 116)%N; [destruct (starts_with _ _); discriminate|].
  destruct (c =? 102)%N; [destruct (starts_with _ _); discriminate|].
  apply lex_number_fuel.
Qed.

(** Every parser consumes at least one character. *)
Lemma parse_length (fuel : nat) :
  (forall s v r, parse_value fuel s = POk v r ->
                 (List.length r < List.length s)%nat) /\
  (forall s acc v r, parse_elements fuel s acc = POk v r ->
                     (List.length r < List.length s)%nat) /\
  (forall s acc v r, parse_members fuel s acc = POk v r ->
                     (List.length r < List.length s)%nat).
Proof.
  induction fuel as [|fuel (IHv & IHe & IHm)].
  { repeat split; simpl; discriminate. }
  repeat split.
  - intros s v r. cbn [parse_value].
    destruct (opens_with 123 (skip_ws s)) as [r1|] eqn:O1.
    { apply opens_after_ws in O1.
      destruct (opens_with 125 (skip_ws r1)) as [r2|] eqn:O2.
      - apply opens_after_ws in O2. intros E; injection E as _ <-. lia.
      - intros E. apply IHm in E. lia. }
    destruct (opens_with 91 (skip_ws s)) as [r1|] eqn:O2.
    { apply opens_after_ws in O2.
      destruct (opens_with 93 (skip_ws r1)) as [r2|] eqn:O3.
      - apply opens_after_ws in O3. intros E; injection E as _ <-. lia.
      - intros E. apply IHe in E. lia. }
    intros E. apply lex_scalar_length in E.
    pose proof (skip_ws_length s). lia.
  - intros s acc v r. cbn [parse_elements].
    destruct (parse_value fuel s) as [v1 r1| |] eqn:V; try discriminate.
    apply IHv in V.
    destruct (opens_with 44 (skip_ws r1)) as [r2|] eqn:O1.
    { apply opens_after_ws in O1. intros E. apply IHe in E. lia. }
    destruct (opens_with 93 (skip_ws r1)) as [r2|] eqn:O2; [|discriminate].
    apply opens_after_ws in O2. intros E; injection E as _ <-. lia.
  - intros s acc v r. cbn [parse_members].
    destruct (opens_with 34 (skip_ws s)) as [r0|] eqn:O0; [|discriminate].
    apply opens_after_ws in O0.
    destruct (lex_string r0 []) as [k r1| |] eqn:K; try discriminate.
    apply lex_string_length in K.
    destruct (opens_with 58 (skip_ws r1)) as [r2|] eqn:O1; [|discriminate].
    apply opens_after_ws in O1.
    destruct (parse_value fuel r2) as [v1 r3| |] eqn:V; try discriminate.
    apply IHv in V.
    destruct (opens_with 44 (skip_ws r3)) as [r4|] eqn:O2.
    { apply opens_after_ws in O2. intros E. apply IHm in E. lia. }
    destruct (opens_with 125 (skip_ws r3)) as [r4|] eqn:O3; [|discriminate].
    apply opens_after_ws in O3. intros E; injection E as _ <-. lia.
Qed.

(** Twice the length of the text is fuel enough. *)
Lemma parse_fuel (fuel : nat) :
  (forall s, (2 * List.length s < fuel)%nat -> parse_value fuel s <> PFuel) /\
  (forall s acc, (2 * List.length s + 1 < fuel)%nat ->
                 parse_elements fuel s acc <> PFuel) /\
  (forall s acc, (2 * List.length s + 1 < fuel)%nat ->
                 parse_members fuel s acc <> PFuel).
Proof.
  induction fuel as [|fuel (IHv & IHe & IHm)].
  { repeat split; intros; lia. }
  destruct (parse_length fuel) as (Lv & Le & Lm).
  repeat split.
  - intros s Hs. cbn [parse_value].
    destruct (opens_with 123 (skip_ws s)) as [r1|] eqn:O1.
    { apply opens_after_ws in O1.
      destruct (opens_with 125 (skip_ws r1)); [discriminate|].
      apply IHm. lia. }
    destruct (opens_with 91 (skip_ws s)) as [r1|] eqn:O2.
    { apply opens_after_ws in O2.
      destruct (opens_with 93 (skip_ws r1)); [discriminate|].
      apply IHe. lia. }
    apply lex_scalar_fuel.
  - intros s acc Hs. cbn [parse_elements].
    pose proof (IHv s) as Fv.
    destruct (parse_value fuel s) as [v1 r1| |] eqn:V;
      [|discriminate|exfalso; apply Fv; [lia|reflexivity]].
    apply Lv in V.
    destruct (opens_with 44 (skip_ws r1)) as [r2|] eqn:O1.
    { apply opens_after_ws in O1. apply IHe. lia. }
    destruct (opens_with 93 (skip_ws r1)); discriminate.
  - intros s acc Hs. cbn [parse_members].
    destruct (opens_with 34 (skip_ws s)) as [r0|] eqn:O0; [|discriminate].
    apply opens_after_ws in O0.
    destruct (lex_string r0 []) as [k r1| |] eqn:K; try discriminate.
    apply lex_string_length in K.
    destruct (opens_with 58 (skip_ws r1)) as [r2|] eqn:O1; [|discriminate].
    apply opens_after_ws in O1.
    pose proof (IHv r2) as Fv.
    destruct (parse_value fuel r2) as [v1 r3| |] eqn:V;
      [|discriminate|exfalso; apply Fv; [lia|reflexivity]].
    apply Lv in V.
    destruct (opens_with 44 (skip_ws r3)) as [r4|] eqn:O2.
    { apply opens_after_ws in O2. apply IHm. lia. }
    destruct (opens_with 125 (skip_ws r3)); discriminate.
Qed.

(** [JSON.parse] answers a SyntaxError only for a text that the grammar
    rejects, never for want of fuel. *)
Lemma parse_value_fuel (text : jsstring) :
  parse_value (2 * List.length text + 1) text <> PFuel.
Proof. apply parse_fuel. lia. Qed.

End JSONFacts.

(** ** The handlers: what they return and what they leave alone *)

Section Combinators.

Context {A B : Type}.

Lemma keeps_log_ret (a : A) : keeps_log (ret a).
Proof. intros st; reflexivity. Qed.

Lemma keeps_log_throw (e : error) : keeps_log (@throw A e).
Proof. intros st; reflexivity. Qed.

Lemma keeps_log_lift (c : completion A) : keeps_log (lift c).
Proof. intros st; reflexivity. Qed.

Lemma keeps_log_bind (m : M A) (k : A -> M B) :
  keeps_log m -> (forall a, keeps_log (k a)) -> keeps_log (mbind m k).
Proof.
  intros Hm Hk st. unfold mbind. specialize (Hm st).
  destruct (m st) as [[a|e] st']; simpl in *; [|exact Hm].
  rewrite Hk. exact Hm.
Qed.

Lemma keeps_log_try_catch (m : M A) (h : error -> M A) :
  keeps_log m -> (forall e, keeps_log (h e)) -> keeps_log (try_catch m h).
Proof.
  intros Hm Hh st. unfold try_catch. specialize (Hm st).
  destruct (m st) as [[a|e] st']; simpl in *; [exact Hm|].
  rewrite Hh. exact Hm.
Qed.

Lemma total_try_catch (m : M A) (h : error -> M A) :
  (forall e, total (h e)) -> total (try_catch m h).
Proof.
  intros Hh st. unfold try_catch.
  destruct (m st) as [[a|e] st']; [exists a; reflexivity|apply Hh].
Qed.

Lemma total_bind (m : M A) (k : A -> M B) :
  total m -> (forall a, total (k a)) -> total (mbind m k).
Proof.
  intros Hm Hk st. unfold mbind. destruct (Hm st) as [a Ha].
  destruct (m st) as [[a'|e] st']; simpl in Ha; [apply Hk|discriminate].
Qed.

End Combinators.

Lemma keeps_log_setLoading (b : bool) : keeps_log (setLoading b).
Proof. intros st; reflexivity. Qed.

Lemma keeps_log_setResponseWith (f : jsstring -> jsstring) :
  keeps_log (setResponseWith f).
Proof. intros st; reflexivity. Qed.

Lemma keeps_log_setResponse (s : jsstring) : keeps_log (setResponse s).
Proof. intros st; reflexivity. Qed.

Lemma keeps_log_setUserAuthSig (s : jsstring) : keeps_log (setUserAuthSig s).
Proof. intros st; reflexivity. Qed.

Lemma keeps_log_console_log (l : jsstring) : keeps_log (console_log l).
Proof. intros st; reflexivity. Qed.

Lemma keeps_log_console_error (l : jsstring) (e : option error) :
  keeps_log (console_error l e).
Proof. intros st; reflexivity. Qed.

Lemma total_setLoading (b : bool) : total (setLoading b).
Proof. intros st; exists tt; reflexivity. Qed.

Lemma total_setResponse (s : jsstring) : total (setResponse s).
Proof. intros st; exists tt; reflexivity. Qed.

Lemma total_console_error (l : jsstring) (e : option error) :
  total (console_error l e).
Proof. intros st; exists tt; reflexivity. Qed.

Lemma total_ret {A : Type} (a : A) : total (ret a).
Proof. intros st; exists a; reflexivity. Qed.

Create HintDb handlers.

#[local] Hint Resolve
  keeps_log_ret keeps_log_throw keeps_log_lift keeps_log_bind
  keeps_log_try_catch keeps_log_setLoading keeps_log_setResponseWith
  keeps_log_setResponse keeps_log_setUserAuthSig keeps_log_console_log
  keeps_log_console_error total_try_catch total_bind total_setLoading
  total_setResponse total_console_error total_ret : handlers.

(** Splits a goal about a handler along its structure and the replies it
    examines. *)
Ltac by_cases :=
  repeat match goal with
         | |- forall _, _ => intro
         | |- keeps_log (match ?x with _ => _ end) => destruct x
         | |- total (match ?x with _ => _ end) => destruct x
         | |- keeps_log (mbind _ _) => apply keeps_log_bind
         | |- keeps_log (try_catch _ _) => apply keeps_log_try_catch
         | |- total (mbind _ _) => apply total_bind
         | |- total (try_catch _ _) => apply total_try_catch
         end;
  auto with handlers.

Section HandlerFacts.

Variable w : World.

Lemma authenticateUser_keeps_log : keeps_log (authenticateUser w).
Proof. unfold authenticateUser. by_cases. Qed.

Lemma authenticateUser_total : total (authenticateUser w).
Proof. unfold authenticateUser. by_cases. Qed.

Lemma handleConnect_keeps_log : keeps_log (handleConnect w).
Proof.
  pose proof authenticateUser_keeps_log.
  unfold handleConnect. by_cases.
Qed.

Lemma handleConnect_total : total (handleConnect w).
Proof. unfold handleConnect. by_cases. Qed.

Lemma fetchCryptoPrice_keeps_log (symbol : value) :
  keeps_log (fetchCryptoPrice w symbol).
Proof. unfold fetchCryptoPrice. by_cases. Qed.

Lemma fetchCryptoPrice_total (symbol : value) :
  total (fetchCryptoPrice w symbol).
Proof. unfold fetchCryptoPrice. by_cases. Qed.

End HandlerFacts.

(** ** The streaming loop *)

Lemma processChunk_eq (value : list byte) (fullResponse : jsstring)
    (st : State) :
  processChunk value fullResponse st =
  match chunkDelta value with
  | Normal delta =>
      (Normal (fullResponse ++ delta),
       run (setResponseWith (fun prev => prev ++ delta)) st)
  | Throw e =>
      (Normal fullResponse,
       run (console_error (js "Error parsing chunk:") (Some e)) st)
  end.
Proof.
  unfold processChunk, chunkDelta, try_catch, mbind, lift, bind, run.
  destruct (JSON.parse (TextDecoder.decode value)) as [v|e]; [|reflexivity].
  destruct (get_field v (js "response")) as [r|e]; [|reflexivity].
  destruct (ToString (or_else r (VStr []))); reflexivity.
Qed.

Lemma processChunk_result (value : list byte) (fullResponse : jsstring)
    (st : State) :
  fst (processChunk value fullResponse st)
  = Normal (fullResponse ++ contribution value).
Proof.
  rewrite processChunk_eq. unfold contribution.
  destruct (chunkDelta value); simpl; [reflexivity|].
  rewrite app_nil_r; reflexivity.
Qed.

Lemma processChunk_response (value : list byte) (fullResponse : jsstring)
    (st : State) :
  response (snd (processChunk value fullResponse st))
  = response st ++ contribution value.
Proof.
  rewrite processChunk_eq. unfold contribution.
  destruct (chunkDelta value); simpl; [reflexivity|].
  rewrite app_nil_r; reflexivity.
Qed.

Lemma processChunk_keeps_log (value : list byte) (fullResponse : jsstring) :
  keeps_log (processChunk value fullResponse).
Proof.
  intros st. rewrite processChunk_eq.
  destruct (chunkDelta value); reflexivity.
Qed.

Lemma readLoop_step (value : list byte) (reads : list (list byte))
    (failure : option error) (fullResponse : jsstring) (st : State) :
  readLoop (value :: reads) failure fullResponse st
  = readLoop reads failure (fullResponse ++ contribution value)
      (snd (processChunk value fullResponse st)).
Proof.
  cbn [readLoop]. unfold mbind.
  pose proof (processChunk_result value fullResponse st) as R.
  destruct (processChunk value fullResponse st) as [[a|e] st'];
    simpl in *; [|discriminate].
  injection R as ->; reflexivity.
Qed.

Lemma readLoop_result (reads : list (list byte)) (failure : option error) :
  forall fullResponse st,
    fst (readLoop reads failure fullResponse st)
    = match failure with
      | None => Normal (fullResponse ++ List.concat (map contribution reads))
      | Some e => Throw e
      end.
Proof.
  induction reads as [|value reads IH]; intros fullResponse st.
  - simpl. destruct failure; simpl; [reflexivity|].
    rewrite app_nil_r; reflexivity.
  - rewrite readLoop_step, IH. destruct failure; [reflexivity|].
    simpl. rewrite app_assoc; reflexivity.
Qed.

Lemma readLoop_response (reads : list (list byte)) (failure : option error) :
  forall fullResponse st,
    response (snd (readLoop reads failure fullResponse st))
    = response st ++ List.concat (map contribution reads).
Proof.
  induction reads as [|value reads IH]; intros fullResponse st.
  - simpl. destruct failure; simpl; rewrite app_nil_r; reflexivity.
  - rewrite readLoop_step, IH, processChunk_response.
    simpl. rewrite app_assoc; reflexivity.
Qed.

Lemma readLoop_keeps_log (reads : list (list byte)) (failure : option error) :
  forall fullResponse, keeps_log (readLoop reads failure fullResponse).
Proof.
  induction reads as [|value reads IH]; intros fullResponse st.
  - simpl. destruct failure; reflexivity.
  - rewrite readLoop_step, IH. apply processChunk_keeps_log.
Qed.

(** ** [handleOllamaQuery] *)

Section OllamaFacts.

Variable w : World.

Lemma handleOllamaQuery_total (query : jsstring) :
  total (handleOllamaQuery w query).
Proof. unfold handleOllamaQuery. by_cases. Qed.

Lemma handleOllamaQuery_log (query : jsstring) (st : State) :
  chatHistory (run (handleOllamaQuery w query) st)
  = chatHistory st ++ answer (generate w query).
Proof.
  unfold run, handleOllamaQuery, try_catch, mbind, answer.
  destruct (generate w query) as [e|ok body]; simpl.
  { rewrite app_nil_r; reflexivity. }
  destruct ok; simpl; [|rewrite app_nil_r; reflexivity].
  destruct body as [[reads failure]|]; simpl;
    [|rewrite app_nil_r; reflexivity].
  pose proof (readLoop_result reads failure [] st) as R.
  pose proof (readLoop_keeps_log reads failure [] st) as L.
  destruct (readLoop reads failure [] st) as [[full|e] st']; simpl in *.
  - destruct failure; [discriminate|]. injection R as ->.
    rewrite L; reflexivity.
  - destruct failure; [|discriminate]. rewrite L, app_nil_r; reflexivity.
Qed.

End OllamaFacts.

(** ** [handleQuery], branch by branch *)

Lemma run_bind {A B : Type} (m : M A) (k : A -> M B) (st : State) (a : A) :
  fst (m st) = Normal a -> run (mbind m k) st = run (k a) (run m st).
Proof.
  unfold run, mbind. destruct (m st) as [[a'|e] st']; simpl; [|discriminate].
  intros E; injection E as ->; reflexivity.
Qed.

Lemma run_seq {A : Type} (m : M unit) (k : M A) (st : State) :
  total m -> run (m ;; k) st = run k (run m st).
Proof.
  intros T. destruct (T st) as [[] E]. apply (run_bind m (fun _ => k) st tt E).
Qed.

Lemma run_try_catch {A : Type} (m : M A) (h : error -> M A) (st : State) :
  total m -> run (try_catch m h) st = run m st.
Proof.
  intros T. unfold run, try_catch. destruct (T st) as [a E].
  destruct (m st) as [[a'|e] st']; simpl in *; [reflexivity|discriminate].
Qed.

Lemma run_try_catch_seq {A : Type} (m : M unit) (k : M A)
      (h : error -> M A) (st : State) :
  total m -> run (try_catch (m ;; k) h) st = run (try_catch k h) (run m st).
Proof.
  intros T. unfold run, try_catch, mbind. destruct (T st) as [[] E].
  destruct (m st) as [[[]|e] st']; simpl in *; [reflexivity|discriminate].
Qed.

Lemma total_appendChat (msg : ChatMessage) : total (appendChat msg).
Proof. intros st; exists tt; reflexivity. Qed.

#[local] Hint Resolve total_appendChat handleConnect_total
  handleOllamaQuery_total fetchCryptoPrice_total : handlers.

Section QueryFacts.

Variable w : World.

Lemma handleQuery_finally (query : jsstring) (st : State) (m : M unit) :
  (forall st', handleQuery w query st'
               = try_finally (try_catch m onError) (setLoading false) st') ->
  submit w query st
  = run (setLoading false) (run (try_catch m onError) st).
Proof.
  intros E. unfold submit. rewrite E. unfold try_finally, run.
  destruct (try_catch m onError st); reflexivity.
Qed.

(** An empty query: nothing is sent and nothing is logged. *)
Lemma handleQuery_empty (query : jsstring) (st : State) :
  is_empty (trim query) = true ->
  submit w query st
  = run (setLoading true ;; setResponse [] ;;
         setResponse (js "Please enter a query") ;; setLoading false ;;
         setLoading false) st.
Proof.
  intros E. unfold submit, handleQuery. rewrite E. reflexivity.
Qed.

(** The query [connect]. *)
Lemma handleQuery_connect (query : jsstring) (st : State) :
  classify query = Connect ->
  submit w query st
  = run (setLoading false)
      (run (setLoading true ;; setResponse [] ;;
            appendChat (mkMsg query user) ;; handleConnect w) st).
Proof.
  unfold classify. intros C.
  destruct (is_empty (trim query)) eqn:E1; [discriminate|].
  destruct (str_eqb (toLowerCase query) (js "connect")) eqn:E2.
  2:{ destruct (includes _ _); [destruct (negb _)|]; discriminate. }
  rewrite (handleQuery_finally query st
             (setLoading true ;; setResponse [] ;;
              appendChat (mkMsg query user) ;; handleConnect w)).
  - rewrite run_try_catch; [reflexivity|by_cases].
  - intros st'. unfold handleQuery. rewrite E1, E2. reflexivity.
Qed.

(** A query for the inference service. *)
Lemma handleQuery_generic (query text : jsstring) (st : State) :
  classify query = GenericQuery text ->
  submit w query st
  = run (setLoading false)
      (run (setLoading true ;; setResponse [] ;;
            appendChat (mkMsg query user) ;; handleOllamaQuery w query) st).
Proof.
  unfold classify. intros C.
  destruct (is_empty (trim query)) eqn:E1; [discriminate|].
  destruct (str_eqb (toLowerCase query) (js "connect")) eqn:E2;
    [discriminate|].
  destruct (includes (toLowerCase query) (js "price of")) eqn:E3.
  { destruct (negb _); discriminate. }
  rewrite (handleQuery_finally query st
             (setLoading true ;; setResponse [] ;;
              appendChat (mkMsg query user) ;; handleOllamaQuery w query)).
  - rewrite run_try_catch; [reflexivity|by_cases].
  - intros st'. unfold handleQuery. rewrite E1, E2, E3. reflexivity.
Qed.

(** A query with [price of] and no token after it. *)
Lemma handleQuery_no_token (query : jsstring) (st : State) :
  is_empty (trim query) = false ->
  classify query
  = Invalid (js "Please provide a valid cryptocurrency name or symbol.") ->
  submit w query st
  = run (setLoading true ;; setResponse [] ;;
         appendChat (mkMsg query user) ;;
         setResponse
           (js "Please provide a valid cryptocurrency name or symbol.") ;;
         setLoading false ;; setLoading false) st.
Proof.
  unfold classify. intros E1 C. rewrite E1 in C.
  destruct (str_eqb (toLowerCase query) (js "connect")) eqn:E2;
    [discriminate|].
  destruct (includes (toLowerCase query) (js "price of")) eqn:E3;
    [|discriminate].
  destruct (negb (truthy (extractCryptoSymbol query))) eqn:E4;
    [|discriminate].
  unfold submit, handleQuery. rewrite E1, E2, E3, E4. reflexivity.
Qed.

(** A price query. *)
Lemma handleQuery_price (query : jsstring) (symbol : value) (st : State) :
  classify query = PriceQuery symbol ->
  submit w query st
  = run (setLoading false)
      (run (try_catch
              (setLoading true ;; setResponse [] ;;
               appendChat (mkMsg query user) ;;
               cryptoPrice <- fetchCryptoPrice w symbol ;;
               msg <- lift (price_message symbol cryptoPrice) ;;
               setResponse msg ;;
               msg' <- lift (price_message symbol cryptoPrice) ;;
               appendChat (mkMsg msg' ai))
              onError) st).
Proof.
  unfold classify. intros C.
  destruct (is_empty (trim query)) eqn:E1; [discriminate|].
  destruct (str_eqb (toLowerCase query) (js "connect")) eqn:E2;
    [discriminate|].
  destruct (includes (toLowerCase query) (js "price of")) eqn:E3;
    [|discriminate].
  destruct (negb (truthy (extractCryptoSymbol query))) eqn:E4;
    [discriminate|].
  injection C as <-.
  apply handleQuery_finally.
  intros st'. unfold handleQuery. rewrite E1, E2, E3, E4. reflexivity.
Qed.

End QueryFacts.

(** ** Symbol resolution *)

Lemma mapping_values_truthy (k : jsstring) (v : value) :
  own cryptoSymbolMappings k = Some v -> truthy v = true.
Proof.
  unfold cryptoSymbolMappings. cbn [own].
  repeat match goal with
         | |- context [str_eqb ?a k] => destruct (str_eqb a k)
         end;
    intros E; try discriminate; injection E as <-; reflexivity.
Qed.

(** A token whose lower-cased form names no member of [Object.prototype]
    resolves to the mapped identifier, or to itself in lower case. *)
Lemma resolveSymbol_own (token : jsstring) :
  object_prototype (toLowerCase token) = VUndefined ->
  resolveSymbol token
  = match own cryptoSymbolMappings (toLowerCase token) with
    | Some canonical => canonical
    | None => VStr (toLowerCase token)
    end.
Proof.
  intros P. unfold resolveSymbol, obj_get, or_else.
  destruct (own cryptoSymbolMappings (toLowerCase token)) as [v|] eqn:O.
  - rewrite (mapping_values_truthy _ _ O). reflexivity.
  - rewrite P. reflexivity.
Qed.

(** C9.  The symbol resolver on the tokens [ETH] and [xyz] of the
    specification, and on the token [constructor]: the lower-cased token is
    no key of the mapping, and what comes back is not the token but the
    function [Object], which the mapping object inherits. *)
Theorem C9_resolve_inherited_member :
  resolveSymbol (js "ETH") = VStr (js "ethereum") /\
  resolveSymbol (js "xyz") = VStr (js "xyz") /\
  own cryptoSymbolMappings (toLowerCase (js "constructor")) = None /\
  resolveSymbol (js "constructor") = VNative ObjectConstructor /\
  extractCryptoSymbol (js "price of constructor") = VNative ObjectConstructor /\
  chatHistory (submit no_quote (js "price of constructor") initial)
  = [mkMsg (js "price of constructor") user;
     mkMsg (js "The current price of "
            ++ js "function Object() { [native code] }"
            ++ js " is $Price not found") ai].
Proof. repeat split; vm_compute; reflexivity. Qed.

(** ** Classification *)

(** The examples of the specification. *)
Example classify_examples :
  classify (js "connect") = Connect /\
  classify (js "Connect") = Connect /\
  classify (js "price of BTC") = PriceQuery (VStr (js "bitcoin")) /\
  classify (js "price of unknowntoken")
  = PriceQuery (VStr (js "unknowntoken")) /\
  classify (js "What is a wallet?") = GenericQuery (js "What is a wallet?").
Proof. repeat split; vm_compute; reflexivity. Qed.

Lemma classify_generic (query text : jsstring) :
  classify query = GenericQuery text <->
  text = query /\
  is_empty (trim query) = false /\
  toLowerCase query <> js "connect" /\
  includes (toLowerCase query) (js "price of") = false.
Proof.
  unfold classify.
  destruct (is_empty (trim query)).
  { split; [discriminate|]. intros (_ & E & _); discriminate. }
  destruct (str_eqb (toLowerCase query) (js "connect")) eqn:E2.
  { apply str_eqb_eq in E2. split; [discriminate|].
    intros (_ & _ & N & _); contradiction. }
  apply str_eqb_neq in E2.
  destruct (includes (toLowerCase query) (js "price of")).
  { split; [destruct (negb _); discriminate|].
    intros (_ & _ & _ & E); discriminate. }
  split.
  - intros E; injection E as <-; auto.
  - intros (-> & _); reflexivity.
Qed.

(** C5, as stated, fails: the query [price of] is not empty, is not the
    command [connect] and does not match the pattern [price of X], yet it is
    answered as invalid and never reaches the inference service. *)
Lemma C5_counterexample :
  is_empty (trim (js "price of")) = false /\
  toLowerCase (js "price of") <> js "connect" /\
  match_price_of (js "price of") = None /\
  classify (js "price of")
  = Invalid (js "Please provide a valid cryptocurrency name or symbol.") /\
  submit (streaming [ok]) (js "price of") initial
  = run (setLoading true ;; setResponse [] ;;
         appendChat (mkMsg (js "price of") user) ;;
         setResponse
           (js "Please provide a valid cryptocurrency name or symbol.") ;;
         setLoading false ;; setLoading false) initial.
Proof.
  repeat split; try (vm_compute; reflexivity).
  vm_compute; discriminate.
Qed.

(** C5, amended.  Every query that is not empty once trimmed, is not
    [connect] in any letter case and does not contain the phrase [price of]
    in any letter case is a GenericQuery that carries the query as typed:
    [handleQuery] logs it and hands that text to [handleOllamaQuery]. *)
Theorem C5_generic_classification (query : jsstring) :
  is_empty (trim query) = false ->
  toLowerCase query <> js "connect" ->
  includes (toLowerCase query) (js "price of") = false ->
  classify query = GenericQuery query /\
  forall w st,
    submit w query st
    = run (setLoading false)
        (run (setLoading true ;; setResponse [] ;;
              appendChat (mkMsg query user) ;; handleOllamaQuery w query) st).
Proof.
  intros E1 E2 E3.
  assert (classify query = GenericQuery query) as C.
  { apply classify_generic; auto. }
  split; [exact C|]. intros w st. apply (handleQuery_generic w query query st C).
Qed.

Lemma C5_generic_classification_witness :
  classify (js "hello") = GenericQuery (js "hello") /\
  forall w st,
    submit w (js "hello") st
    = run (setLoading false)
        (run (setLoading true ;; setResponse [] ;;
              appendChat (mkMsg (js "hello") user) ;;
              handleOllamaQuery w (js "hello")) st).
Proof.
  apply (C5_generic_classification (js "hello")).
  - vm_compute; reflexivity.
  - vm_compute; discriminate.
  - vm_compute; reflexivity.
Defined.

(** ** The conversation log *)

Lemma log_seq {A : Type} (m : M unit) (k : M A) (st : State) :
  total m ->
  chatHistory (run (m ;; k) st) = chatHistory (run k (run m st)).
Proof. intros T. rewrite run_seq; auto. Qed.

Lemma log_finally (st : State) :
  chatHistory (run (setLoading false) st) = chatHistory st.
Proof. reflexivity. Qed.

Section LogFacts.

Variable w : World.

(** What a price query leaves in the log: the query, and the answer when
    its text can be built. *)
Lemma price_log (query : jsstring) (symbol : value) (st : State) :
  exists agent,
    chatHistory
      (run (try_catch
              (setLoading true ;; setResponse [] ;;
               appendChat (mkMsg query user) ;;
               cryptoPrice <- fetchCryptoPrice w symbol ;;
               msg <- lift (price_message symbol cryptoPrice) ;;
               setResponse msg ;;
               msg' <- lift (price_message symbol cryptoPrice) ;;
               appendChat (mkMsg msg' ai))
              onError) st)
    = chatHistory st ++ mkMsg query user :: agent /\
    (List.length agent <= 1)%nat /\
    forall m, In m agent -> sender m = ai.
Proof.
  unfold run, try_catch. cbn [mbind setLoading setResponse setResponseWith
                                appendChat fst snd].
  unfold mbind at 1 2 3. cbn [setLoading setResponse setResponseWith
                                appendChat emit fst snd response loading
                                chatHistory userAuthSig events].
  match goal with
  | |- context [fetchCryptoPrice w symbol ?s] => set (st1 := s)
  end.
  pose proof (fetchCryptoPrice_keeps_log w symbol st1) as K.
  destruct (fetchCryptoPrice_total w symbol st1) as [price T].
  unfold mbind.
  destruct (fetchCryptoPrice w symbol st1) as [[p|e] st2];
    simpl in T, K; [injection T as ->|discriminate].
  unfold lift.
  destruct (price_message symbol price) as [msg|e]; simpl.
  - exists [mkMsg msg ai]. rewrite K. subst st1; simpl.
    rewrite <- app_assoc. repeat split; auto.
    intros m [<-|[]]; reflexivity.
  - exists []. rewrite K. subst st1; simpl. repeat split; auto.
    intros m [].
Qed.

End LogFacts.

(** C2, as stated, fails: a query that is empty once trimmed is rejected
    before anything is logged, and leaves no User entry. *)
Lemma C2_counterexample :
  classify (js "   ") = Invalid (js "Please enter a query") /\
  chatHistory (submit offline (js "   ") initial) = [] /\
  entries_of user (chatHistory (submit offline (js "   ") initial)) = [].
Proof. repeat split; vm_compute; reflexivity. Qed.

(** C2, amended.  A query that is empty once trimmed adds nothing to the
    log.  Every other query, whichever way it is handled and whatever the
    collaborators answer, adds one User entry with the text as typed,
    followed by at most one entry, of the Agent. *)
Theorem C2_log_per_submit (w : World) (query : jsstring) (st : State) :
  exists agent,
    chatHistory (submit w query st)
    = chatHistory st
      ++ (if is_empty (trim query) then [] else mkMsg query user :: agent) /\
    (List.length agent <= 1)%nat /\
    (forall m, In m agent -> sender m = ai).
Proof.
  destruct (is_empty (trim query)) eqn:E1.
  { exists []. rewrite (handleQuery_empty w query st E1).
    simpl. rewrite app_nil_r. repeat split; auto. intros m []. }
  destruct (classify query) as [|symbol|text|reason] eqn:C.
  - exists []. rewrite (handleQuery_connect w query st C), log_finally.
    rewrite !log_seq by auto with handlers.
    unfold run at 1. rewrite handleConnect_keeps_log.
    repeat split; auto. intros m [].
  - rewrite (handleQuery_price w query symbol st C), log_finally.
    apply price_log.
  - exists (answer (generate w query)).
    rewrite (handleQuery_generic w query text st C), log_finally.
    rewrite !log_seq by auto with handlers.
    rewrite handleOllamaQuery_log. simpl. rewrite <- app_assoc.
    split; [reflexivity|]. unfold answer.
    destruct (generate w query) as [e|[|] [[reads [e|]]|]]; simpl;
      split; auto; intros m H; try contradiction.
    destruct H as [<-|[]]; reflexivity.
  - exists []. 
    assert (reason = js "Please provide a valid cryptocurrency name or symbol.")
      as ->.
    { revert C. unfold classify. rewrite E1.
      destruct (str_eqb _ _); [discriminate|].
      destruct (includes _ _); [|discriminate].
      destruct (negb _); [|discriminate].
      intros E; injection E as <-; reflexivity. }
    rewrite (handleQuery_no_token w query st E1 C).
    repeat split; auto. intros m [].
Qed.

(** ** The wallet *)

(** C3, as stated, fails: with a wallet that hands over an account and a
    signature, the query [connect] ends with the confirmation shown as the
    response and with the signature stored, and the log holds the User
    entry only. *)
Lemma C3_counterexample :
  classify (js "connect") = Connect /\
  chatHistory (submit wallet_ok (js "connect") initial)
  = [mkMsg (js "connect") user] /\
  entries_of ai (chatHistory (submit wallet_ok (js "connect") initial))
  = [] /\
  userAuthSig (submit wallet_ok (js "connect") initial)
  = Some (js "sig") /\
  response (submit wallet_ok (js "connect") initial)
  = js "Connected to wallet: 0xabc and authenticated successfully!".
Proof. repeat split; vm_compute; reflexivity. Qed.

(** C3, amended.  A Connect query adds the User entry to the log and no
    Agent entry, whether the wallet succeeds or fails.  When the wallet
    hands over an account and the authentication message is signed, the
    confirmation is shown as the response and the signature is stored; when
    there is no wallet, the request is rejected or no account comes back,
    an error message is shown as the response. *)
Theorem C3_connect (w : World) (query : jsstring) (st : State) :
  classify query = Connect ->
  chatHistory (submit w query st) = chatHistory st ++ [mkMsg query user]
  /\ (forall address others sig,
        ethereum w = Some (Accounts (address :: others)) ->
        checkAndSignAuthMessage w = Signed sig ->
        response (submit w query st)
        = js "Connected to wallet: " ++ address
          ++ js " and authenticated successfully!" /\
        userAuthSig (submit w query st) = Some sig)
  /\ (ethereum w = None ->
      response (submit w query st) = js "No Ethereum provider detected.")
  /\ (forall e,
        ethereum w = Some (RequestRejects e) ->
        response (submit w query st)
        = js "Failed to connect wallet or authenticate.")
  /\ (ethereum w = Some (Accounts []) ->
      response (submit w query st) = js "No wallet connected").
Proof.
  intros C. rewrite (handleQuery_connect w query st C).
  split.
  { rewrite log_finally. rewrite !log_seq by auto with handlers.
    unfold run at 1. rewrite handleConnect_keeps_log. reflexivity. }
  unfold run, handleConnect, authenticateUser, try_catch, mbind.
  split; [|split; [|split]].
  - intros address others sig E S. rewrite E, S. split; reflexivity.
  - intros E; rewrite E; reflexivity.
  - intros e E; rewrite E; reflexivity.
  - intros E; rewrite E; reflexivity.
Qed.

Lemma C3_connect_witness :
  chatHistory (submit wallet_ok (js "Connect") initial)
  = [mkMsg (js "Connect") user].
Proof.
  apply (C3_connect wallet_ok (js "Connect") initial).
  vm_compute; reflexivity.
Defined.

(** ** The price service *)

Section PriceFacts.

Variable w : World.

Lemma handleQuery_price_answer (query id : jsstring) (price : value)
      (text : jsstring) (st : State) :
  classify query = PriceQuery (VStr id) ->
  (forall st', fst (fetchCryptoPrice w (VStr id) st') = Normal price) ->
  ToString price = Normal text ->
  chatHistory (submit w query st)
  = chatHistory st ++ [mkMsg query user; mkMsg (price_text id text) ai] /\
  response (submit w query st) = price_text id text.
Proof.
  intros C F T. rewrite (handleQuery_price w query (VStr id) st C).
  rewrite !run_try_catch_seq by auto with handlers.
  set (st1 := run (appendChat (mkMsg query user)) _).
  assert (chatHistory st1 = chatHistory st ++ [mkMsg query user]) as L1
      by reflexivity.
  clearbody st1.
  pose proof (fetchCryptoPrice_keeps_log w (VStr id) st1) as K.
  match goal with
  | |- context [run (try_catch ?rest onError) st1] =>
      assert (run (try_catch rest onError) st1
              = run (setResponse (price_text id text) ;;
                     appendChat (mkMsg (price_text id text) ai))
                  (snd (fetchCryptoPrice w (VStr id) st1))) as ->
  end.
  { specialize (F st1). unfold run, try_catch, mbind.
    destruct (fetchCryptoPrice w (VStr id) st1) as [[p|e] st2];
      simpl in F; [injection F as ->|discriminate].
    unfold lift, price_message. cbn [ToString bind]. rewrite T.
    reflexivity. }
  cbn [bind run mbind setResponse setResponseWith appendChat setLoading emit
       fst snd response loading chatHistory userAuthSig events].
  rewrite K, L1, <- app_assoc. split; reflexivity.
Qed.

Lemma fetchCryptoPrice_rejected (id : jsstring) (e : error) (st : State) :
  axios_get w (price_url id) = AxiosRejects e ->
  fst (fetchCryptoPrice w (VStr id) st)
  = Normal (VStr (js "Error fetching price")).
Proof.
  intros E. unfold fetchCryptoPrice, try_catch, mbind, lift.
  cbn [ToString]. rewrite E. reflexivity.
Qed.

Lemma fetchCryptoPrice_no_price (id : jsstring)
      (data : option (list (jsstring * value))) (st : State) :
  axios_get w (price_url id) = AxiosResponse data ->
  no_price data id ->
  fst (fetchCryptoPrice w (VStr id) st) = Normal (VStr (js "Price not found")).
Proof.
  intros E N. unfold fetchCryptoPrice, try_catch, mbind, lift.
  cbn [ToString]. rewrite E. cbn [ret].
  destruct data as [m|]; [|reflexivity].
  destruct (truthy (obj_get m id)) eqn:T; [|reflexivity].
  destruct N as [N|(usd & G & F)]; [congruence|].
  rewrite G. unfold ret, or_else. rewrite F. reflexivity.
Qed.

Lemma fetchCryptoPrice_quoted (id : jsstring)
      (m entry : list (jsstring * value)) (x : Num.f64) (st : State) :
  axios_get w (price_url id) = AxiosResponse (Some m) ->
  obj_get m id = VObj entry ->
  obj_get entry (js "usd") = VNum x ->
  Num.toBoolean x = true ->
  fst (fetchCryptoPrice w (VStr id) st) = Normal (VNum x).
Proof.
  intros E O U T. unfold fetchCryptoPrice, try_catch, mbind, lift.
  cbn [ToString]. rewrite E. cbn [ret]. rewrite O.
  cbn [truthy get_field]. rewrite U. unfold ret, or_else.
  cbn [truthy]. rewrite T. reflexivity.
Qed.

End PriceFacts.

(** C1, as stated, fails: when the price service cannot be reached, and when
    it answers without a price, the query is still answered with an Agent
    entry in the log. *)
Lemma C1_counterexample :
  classify (js "price of btc") = PriceQuery (VStr (js "bitcoin")) /\
  chatHistory (submit offline (js "price of btc") initial)
  = [mkMsg (js "price of btc") user;
     mkMsg (js "The current price of bitcoin is $Error fetching price") ai] /\
  chatHistory (submit no_quote (js "price of btc") initial)
  = [mkMsg (js "price of btc") user;
     mkMsg (js "The current price of bitcoin is $Price not found") ai].
Proof. repeat split; vm_compute; reflexivity. Qed.


(** ** The streaming assembler *)

(** C4, as stated, fails.  The two fragments [{"response":"He"}] and
    [{"response":"llo"}] give [Hello] as two reads and nothing as one read
    with a newline between them; the fragment [{"response":"é"}] gives [é]
    as one read and nothing when the read boundary falls inside the
    letter. *)
Lemma C4_counterexample :
  fst (readLoop [He; llo] None [] initial) = Normal (js "Hello") /\
  fst (readLoop [He ++ newline ++ llo] None [] initial) = Normal [] /\
  fst (readLoop [e_acute_head ++ e_acute_tail] None [] initial)
  = Normal [233%N] /\
  fst (readLoop [e_acute_head; e_acute_tail] None [] initial) = Normal [].
Proof. repeat split; vm_compute; reflexivity. Qed.


(** C6.  A read that fails to parse is skipped: the loop goes on with the
    accumulated text as it was, writes the error to the console, and ends
    with the text that the other reads give.  With the reads [not-json]
    and [{"response":"ok"}] the final text is [ok], and [handleQuery] logs
    it as the answer. *)
Theorem C6_malformed_read_skipped (before after : list (list byte))
    (bad : list byte) (e : error) (fullResponse : jsstring) (st : State) :
  JSON.parse (TextDecoder.decode bad) = Throw e ->
  processChunk bad fullResponse st
  = (Normal fullResponse,
     run (console_error (js "Error parsing chunk:") (Some e)) st) /\
  fst (readLoop (before ++ bad :: after) None [] st)
  = Normal (List.concat (map contribution (before ++ after))) /\
  fst (readLoop (before ++ bad :: after) None [] st)
  = fst (readLoop (before ++ after) None [] st) /\
  fst (readLoop [not_json; ok] None [] st) = Normal (js "ok") /\
  chatHistory (submit (streaming [not_json; ok]) (js "hi") st)
  = chatHistory st ++ [mkMsg (js "hi") user; mkMsg (js "ok") ai].
Proof.
  intros P.
  assert (chunkDelta bad = Throw e) as D.
  { unfold chunkDelta. rewrite P. reflexivity. }
  assert (contribution bad = []) as B.
  { unfold contribution. rewrite D. reflexivity. }
  split; [|split; [|split; [|split]]].
  - rewrite processChunk_eq, D. reflexivity.
  - rewrite readLoop_result, !map_app, !concat_app. simpl. rewrite B.
    reflexivity.
  - rewrite !readLoop_result, !map_app, !concat_app. simpl. rewrite B.
    reflexivity.
  - rewrite readLoop_result. vm_compute. reflexivity.
  - rewrite (handleQuery_generic (streaming [not_json; ok]) (js "hi")
               (js "hi") st) by (vm_compute; reflexivity).
    rewrite log_finally. rewrite !log_seq by auto with handlers.
    rewrite handleOllamaQuery_log. simpl. rewrite <- app_assoc.
    vm_compute List.concat. reflexivity.
Qed.

Lemma C6_malformed_read_skipped_witness :
  fst (readLoop ([He] ++ not_json :: [llo]) None [] initial)
  = fst (readLoop ([He] ++ [llo]) None [] initial).
Proof.
  apply (C6_malformed_read_skipped [He] [llo] not_json SyntaxError []
           initial).
  vm_compute; reflexivity.
Defined.

Lemma chunkDelta_He : chunkDelta He = Normal (js "He").
Proof. vm_compute; reflexivity. Qed.

Lemma chunkDelta_llo : chunkDelta llo = Normal (js "llo").
Proof. vm_compute; reflexivity. Qed.

(** The loop on the two reads [{"response":"He"}], [{"response":"llo"}]. *)
Lemma readLoop_He_llo (st : State) :
  readLoop [He; llo] None [] st
  = (Normal (js "Hello"),
     run (setResponseWith (fun prev => prev ++ js "llo"))
       (run (setResponseWith (fun prev => prev ++ js "He")) st)).
Proof.
  cbn [readLoop]. unfold mbind.
  rewrite processChunk_eq, chunkDelta_He.
  rewrite processChunk_eq, chunkDelta_llo.
  reflexivity.
Qed.

(** C7.  With the reads [{"response":"He"}] and [{"response":"llo"}] the
    final accumulated text is [Hello], and the partial answer is published
    twice ([setResponse] is the observer): with [He] after the first read
    and with [Hello] after the second, before the answer is logged. *)
Theorem C7_two_reads (w : World) (query : jsstring) (st : State) :
  classify query = GenericQuery query ->
  generate w query = FetchResponse true (Some (mkBody [He; llo] None)) ->
  fst (readLoop [He; llo] None [] st) = Normal (js "Hello") /\
  events (snd (readLoop [He; llo] None [] st))
  = events st ++ [SetResponse (response st ++ js "He");
                  SetResponse (response st ++ js "Hello")] /\
  events (submit w query st)
  = events st
    ++ [SetLoading true; SetResponse [];
        SetChatHistory (chatHistory st ++ [mkMsg query user]);
        SetResponse (js "He"); SetResponse (js "Hello");
        SetChatHistory (chatHistory st ++ [mkMsg query user;
                                           mkMsg (js "Hello") ai]);
        SetLoading false] /\
  chatHistory (submit w query st)
  = chatHistory st ++ [mkMsg query user; mkMsg (js "Hello") ai].
Proof.
  intros C G. split; [|split; [|split]].
  - rewrite readLoop_He_llo. reflexivity.
  - rewrite readLoop_He_llo. cbn. rewrite <- !app_assoc. reflexivity.
  - rewrite (handleQuery_generic w query query st C).
    unfold run, handleOllamaQuery, try_catch.
    unfold mbind at 1 2 3.
    cbn [setLoading setResponse setResponseWith appendChat emit fst snd
         response loading chatHistory userAuthSig events].
    unfold mbind. rewrite G. cbn [ret negb fst snd chunks failure].
    rewrite readLoop_He_llo.
    cbn. rewrite <- !app_assoc. reflexivity.
  - rewrite (handleQuery_generic w query query st C), log_finally.
    rewrite !log_seq by auto with handlers.
    rewrite handleOllamaQuery_log, G. simpl. rewrite <- app_assoc.
    reflexivity.
Qed.

Lemma C7_two_reads_witness :
  events (submit (streaming [He; llo]) (js "hi") initial)
  = [SetLoading true; SetResponse [];
     SetChatHistory [mkMsg (js "hi") user];
     SetResponse (js "He"); SetResponse (js "Hello");
     SetChatHistory [mkMsg (js "hi") user; mkMsg (js "Hello") ai];
     SetLoading false].
Proof.
  apply (C7_two_reads (streaming [He; llo]) (js "hi") initial).
  - vm_compute; reflexivity.
  - reflexivity.
Defined.

(** C8.  A stream that ends before any read gives the empty text, without
    an error, and [handleQuery] still logs that text as the one Agent entry
    of the query. *)
Theorem C8_empty_stream (w : World) (query : jsstring) (st : State) :
  classify query = GenericQuery query ->
  generate w query = FetchResponse true (Some (mkBody [] None)) ->
  readLoop [] None [] st = (Normal [], st) /\
  chatHistory (submit w query st)
  = chatHistory st ++ [mkMsg query user; mkMsg [] ai] /\
  entries_of ai (chatHistory (submit w query st))
  = entries_of ai (chatHistory st) ++ [mkMsg [] ai].
Proof.
  intros C G.
  assert (chatHistory (submit w query st)
          = chatHistory st ++ [mkMsg query user; mkMsg [] ai]) as L.
  { rewrite (handleQuery_generic w query query st C), log_finally.
    rewrite !log_seq by auto with handlers.
    rewrite handleOllamaQuery_log, G. simpl. rewrite <- app_assoc.
    reflexivity. }
  split; [reflexivity|]. split; [exact L|].
  rewrite L. unfold entries_of. rewrite filter_app. reflexivity.
Qed.

Lemma C8_empty_stream_witness :
  chatHistory (submit (streaming []) (js "hi") initial)
  = [mkMsg (js "hi") user; mkMsg [] ai].
Proof.
  apply (C8_empty_stream (streaming []) (js "hi") initial).
  - vm_compute; reflexivity.
  - reflexivity.
Defined.

Lemma without_response_contribution (value : list byte) :
  without_response value -> contribution value = [].
Proof.
  unfold contribution, chunkDelta.
  intros [(e & P)|[(v & P & O)|[(m & P & O)|(m & r & P & O & F)]]];
    rewrite P; cbn [bind].
  - reflexivity.
  - destruct v; try reflexivity. exfalso; exact (O m eq_refl).
  - cbn [get_field bind]. unfold obj_get. rewrite O. reflexivity.
  - cbn [get_field bind]. unfold obj_get, or_else. rewrite O, F. reflexivity.
Qed.

(** C10.  No read makes the loop throw: [processChunk] returns normally on
    every chunk.  A chunk that does not parse, that parses to something
    other than an object ([null] throws inside the [try], the others have
    no [response]), or to an object whose [response] is absent or falsy,
    leaves the accumulated text, the response shown and the log as they
    were, and the loop goes on to the end of the stream. *)
Theorem C10_chunk_never_throws (value : list byte) (fullResponse : jsstring)
    (st : State) :
  (exists fullResponse' st',
     processChunk value fullResponse st = (Normal fullResponse', st')) /\
  (without_response value ->
   fst (processChunk value fullResponse st) = Normal fullResponse /\
   response (snd (processChunk value fullResponse st)) = response st /\
   chatHistory (snd (processChunk value fullResponse st)) = chatHistory st /\
   forall rest,
     fst (readLoop (value :: rest) None fullResponse st)
     = Normal (fullResponse ++ List.concat (map contribution rest))).
Proof.
  split.
  - rewrite processChunk_eq. destruct (chunkDelta value); eauto.
  - intros W. apply without_response_contribution in W.
    rewrite processChunk_result, processChunk_response, W, !app_nil_r.
    repeat split.
    + apply processChunk_keeps_log.
    + intros rest. rewrite readLoop_result. simpl. rewrite W. reflexivity.
Qed.

Lemma C10_chunk_never_throws_witness :
  fst (processChunk (bytes_of (js "null")) (js "He") initial)
  = Normal (js "He").
Proof.
  apply (C10_chunk_never_throws (bytes_of (js "null")) (js "He") initial).
  right; left. exists VNull. split; [vm_compute; reflexivity|].
  intros m; discriminate.
Defined.

(** ** More on the queries *)

Lemma trim_start_head (s r : jsstring) (c : N) :
  trim_start s = c :: r -> is_js_space c = false.
Proof.
  induction s as [|x s IH]; simpl; [discriminate|].
  destruct (is_js_space x) eqn:E; [exact IH|].
  intros H; injection H as <- _; exact E.
Qed.

Lemma trim_start_nil (s : jsstring) :
  trim_start s = [] <-> forallb is_js_space s = true.
Proof.
  induction s as [|x s IH]; simpl; [tauto|].
  destruct (is_js_space x); simpl; [exact IH|].
  split; discriminate.
Qed.

Lemma trim_empty (query : jsstring) :
  is_empty (trim query) = true <-> forallb is_js_space query = true.
Proof.
  unfold trim. rewrite <- trim_start_nil. split.
  - intros E. destruct (trim_start query) as [|c r] eqn:T; [reflexivity|].
    exfalso. pose proof (trim_start_head query r c T) as Hc.
    destruct (rev (trim_start (rev (c :: r)))) as [|y l] eqn:R;
      [|discriminate].
    apply (f_equal (@rev N)) in R. rewrite rev_involutive in R. simpl in R.
    apply trim_start_nil in R. rewrite forallb_forall in R.
    specialize (R c). rewrite R in Hc; [discriminate|].
    apply in_or_app. right. left. reflexivity.
  - intros ->. reflexivity.
Qed.

(** X1.  A query is turned down as empty exactly when every character of it
    is white space; such a query is answered [Please enter a query] whatever
    the collaborators would answer, and the log stays as it was. *)
Theorem blank_query_rejected (query : jsstring) :
  (classify query = Invalid (js "Please enter a query")
   <-> forallb is_js_space query = true) /\
  (forallb is_js_space query = true ->
   forall w w' st,
     submit w query st = submit w' query st /\
     chatHistory (submit w query st) = chatHistory st /\
     response (submit w query st) = js "Please enter a query").
Proof.
  split.
  - rewrite <- trim_empty. unfold classify.
    destruct (is_empty (trim query)); [tauto|].
    split; [|discriminate].
    destruct (str_eqb _ _); [discriminate|].
    destruct (includes _ _); [|discriminate].
    destruct (negb _); [|discriminate].
    intros E; injection E as E. vm_compute in E. discriminate.
  - intros B w w' st. apply trim_empty in B.
    rewrite !(handleQuery_empty _ query st B). repeat split.
Qed.

Lemma blank_query_rejected_witness :
  submit offline (js "   ") initial = submit quoting (js "   ") initial.
Proof.
  apply (proj2 (blank_query_rejected (js "   "))).
  vm_compute; reflexivity.
Defined.

(** *** The pattern and the gate *)

Lemma eq_ignore_case_lower (p c : N) :
  eq_ignore_case p c = true ->
  ((97 <= p)%N /\ (p <= 122)%N) \/ p = 32%N ->
  lower_unit c = p.
Proof.
  unfold eq_ignore_case, lower_unit. intros E Hp. apply N.eqb_eq in E.
  destruct (N.leb_spec 97 p), (N.leb_spec p 122), (N.leb_spec 97 c),
    (N.leb_spec c 122), (N.leb_spec 65 c), (N.leb_spec c 90),
    (N.leb_spec 192 c), (N.leb_spec c 222); simpl in *;
    try destruct (N.eqb_spec c 215); simpl; lia.
Qed.

Lemma starts_with_i_lower (p s : jsstring) :
  Forall pattern_char p ->
  starts_with_i p s = true -> starts_with p (toLowerCase s) = true.
Proof.
  intros F. revert s. induction F as [|x p Hx F IH]; intros s; [reflexivity|].
  destruct s as [|y s]; simpl; [discriminate|].
  rewrite !andb_true_iff. intros [E R]. split; [|apply IH; exact R].
  apply N.eqb_eq. symmetry. apply eq_ignore_case_lower; assumption.
Qed.

Lemma starts_with_app (p x s : jsstring) :
  starts_with (p ++ x) s = true -> starts_with p s = true.
Proof.
  revert s; induction p as [|a p IH]; intros s; [reflexivity|].
  destruct s as [|b s]; simpl; [discriminate|].
  rewrite !andb_true_iff. intros [E R]. split; [exact E|apply IH; exact R].
Qed.

Lemma price_of_pattern : Forall pattern_char (js "price of ").
Proof. repeat constructor; unfold pattern_char; simpl; lia. Qed.

Lemma match_price_of_gate (query token : jsstring) :
  match_price_of query = Some token ->
  includes (toLowerCase query) (js "price of") = true /\ token <> [].
Proof.
  induction query as [|c query IH].
  - cbn [match_price_of]. 
    destruct (starts_with_i (js "price of ") []) eqn:S; [|discriminate].
    vm_compute in S. discriminate.
  - cbn [match_price_of].
    destruct (starts_with_i (js "price of ") (c :: query)) eqn:S.
    + destruct (take_word (skipn 9 (c :: query))) as [|x t] eqn:T.
      * intros H. destruct (IH H) as [G N]. split; [|exact N].
        cbn [toLowerCase map includes]. fold (toLowerCase query).
        rewrite G. apply orb_true_r.
      * intros H; injection H as <-. split; [|discriminate].
        apply (starts_with_i_lower _ _ price_of_pattern) in S.
        apply (starts_with_app (js "price of") (js " ") _) in S.
        unfold toLowerCase in *. cbn [map] in *. cbn [includes].
        rewrite S. reflexivity.
    + intros H. destruct (IH H) as [G N]. split; [|exact N].
      cbn [toLowerCase map includes]. fold (toLowerCase query).
      rewrite G. apply orb_true_r.
Qed.

Lemma lower_unit_p (c : N) :
  lower_unit c = N_of_ascii "p" -> c = 112%N \/ c = 80%N.
Proof.
  unfold lower_unit. simpl.
  destruct (N.leb_spec 65 c), (N.leb_spec c 90), (N.leb_spec 192 c),
    (N.leb_spec c 222), (N.eqb_spec c 215); simpl; lia.
Qed.

Lemma resolveSymbol_truthy (token : jsstring) :
  token <> [] -> truthy (resolveSymbol token) = true.
Proof.
  intros N. unfold resolveSymbol, or_else.
  destruct (truthy (obj_get cryptoSymbolMappings (toLowerCase token))) eqn:T;
    [exact T|].
  destruct token; [congruence|reflexivity].
Qed.

(** X2.  [extractCryptoSymbol] answers [null] exactly when the query has no
    [price of] followed by a word, and a truthy value otherwise.  A query
    with such a match always passes the test of line 89, so (unless it is
    empty or [connect]) it is a PriceQuery for the resolved word; a query
    that passes the test without a match is answered as invalid. *)
Theorem price_pattern_decides (query : jsstring) :
  (extractCryptoSymbol query = VNull <-> match_price_of query = None) /\
  (forall token,
     match_price_of query = Some token ->
     truthy (extractCryptoSymbol query) = true /\
     includes (toLowerCase query) (js "price of") = true /\
     (classify query <> Connect ->
      classify query = PriceQuery (resolveSymbol token))) /\
  (match_price_of query = None ->
   is_empty (trim query) = false ->
   toLowerCase query <> js "connect" ->
   includes (toLowerCase query) (js "price of") = true ->
   classify query
   = Invalid (js "Please provide a valid cryptocurrency name or symbol.")).
Proof.
  unfold classify, extractCryptoSymbol.
  split; [|split].
  - destruct (match_price_of query) as [t|] eqn:M; [|tauto].
    destruct (match_price_of_gate query t M) as [_ N].
    pose proof (resolveSymbol_truthy t N) as T.
    split; [|discriminate]. intros E. rewrite E in T. discriminate.
  - intros token M. rewrite M.
    destruct (match_price_of_gate query token M) as [G N].
    pose proof (resolveSymbol_truthy token N) as T.
    split; [exact T|]. split; [exact G|].
    rewrite G, T. simpl.
    destruct (is_empty (trim query)) eqn:E.
    { exfalso. apply trim_empty in E.
      clear - E G. revert G.
      assert (forall s, forallb is_js_space s = true ->
                        includes (toLowerCase s) (js "price of") = false)
        as H.
      { induction s as [|c s IH]; [reflexivity|].
        cbn [forallb]. rewrite andb_true_iff. intros [Hc Hs].
        cbn [toLowerCase map includes]. fold (toLowerCase s).
        rewrite (IH Hs), orb_false_r.
        cbn [starts_with js map list_ascii_of_string].
        destruct (N.eqb_spec (N_of_ascii "p") (lower_unit c)) as [P|];
          [|reflexivity].
        exfalso. symmetry in P. apply lower_unit_p in P.
        destruct P as [->| ->]; vm_compute in Hc; discriminate. }
      intros G. rewrite (H query E) in G. discriminate. }
    destruct (str_eqb (toLowerCase query) (js "connect")); [congruence|].
    reflexivity.
  - intros M E1 E2 E3. rewrite M, E1, E3.
    apply str_eqb_neq in E2. rewrite E2. reflexivity.
Qed.

Lemma price_pattern_decides_witness :
  classify (js "Price Of DOGE!") = PriceQuery (resolveSymbol (js "DOGE")).
Proof.
  apply (proj1 (proj2 (price_pattern_decides (js "Price Of DOGE!")))
           (js "DOGE")).
  - vm_compute; reflexivity.
  - vm_compute; discriminate.
Defined.

(** *** Resolved symbols *)

Lemma lower_unit_idem (c : N) : lower_unit (lower_unit c) = lower_unit c.
Proof.
  unfold lower_unit.
  destruct (N.leb_spec 65 c), (N.leb_spec c 90), (N.leb_spec 192 c),
    (N.leb_spec c 222), (N.eqb_spec c 215); simpl;
    repeat match goal with
           | |- context [(?a <=? ?b)%N] => destruct (N.leb_spec a b)
           | |- context [(?a =? ?b)%N] => destruct (N.eqb_spec a b)
           end; simpl; lia.
Qed.

Lemma toLowerCase_idem (s : jsstring) :
  toLowerCase (toLowerCase s) = toLowerCase s.
Proof.
  unfold toLowerCase. rewrite map_map. apply map_ext. apply lower_unit_idem.
Qed.

Lemma mapping_values (k : jsstring) (v : value) :
  own cryptoSymbolMappings k = Some v ->
  In v (map snd cryptoSymbolMappings).
Proof.
  unfold cryptoSymbolMappings. cbn [own].
  repeat match goal with
         | |- context [str_eqb ?a k] => destruct (str_eqb a k)
         end;
    intros E; try discriminate; injection E as <-; simpl; tauto.
Qed.

(** X3.  A symbol that [extractCryptoSymbol] resolves to a string is in
    lower case and resolves to itself: no canonical identifier of the table
    is an alias of another one, so resolving twice is resolving once. *)
Theorem resolveSymbol_idempotent (token symbol : jsstring) :
  resolveSymbol token = VStr symbol ->
  toLowerCase symbol = symbol /\ resolveSymbol symbol = VStr symbol.
Proof.
  unfold resolveSymbol at 1. unfold obj_get, or_else.
  destruct (own cryptoSymbolMappings (toLowerCase token)) as [v|] eqn:O.
  - rewrite (mapping_values_truthy _ _ O). intros ->.
    apply mapping_values in O. simpl in O.
    repeat (destruct O as [O|O];
            [injection O as <-; split; vm_compute; reflexivity|]).
    contradiction.
  - destruct (truthy (object_prototype (toLowerCase token))) eqn:T.
    + unfold object_prototype in *.
      destruct (str_eqb _ _); [discriminate|].
      destruct (str_eqb _ _); [discriminate|].
      destruct (existsb _ _); discriminate.
    + intros E; injection E as <-. split; [apply toLowerCase_idem|].
      unfold resolveSymbol, obj_get, or_else.
      rewrite toLowerCase_idem, O, T. reflexivity.
Qed.

Lemma resolveSymbol_idempotent_witness :
  resolveSymbol (js "bitcoin") = VStr (js "bitcoin").
Proof.
  apply (resolveSymbol_idempotent (js "BTC") (js "bitcoin")).
  vm_compute; reflexivity.
Defined.

(** ** More on the handlers *)

Section MoreHandlerFacts.

Variable w : World.

(** [authenticateUser] never throws.  It stores the signature when
    there is a wallet provider and the message is signed, and leaves
    [userAuthSig] as it was otherwise; the response shown, the loading flag
    and the log are never touched. *)
Lemma authenticateUser_effect (st : State) :
  fst (authenticateUser w st) = Normal tt /\
  userAuthSig (run (authenticateUser w) st)
  = match ethereum w, checkAndSignAuthMessage w with
    | Some _, Signed sig => Some sig
    | _, _ => userAuthSig st
    end /\
  response (run (authenticateUser w) st) = response st /\
  loading (run (authenticateUser w) st) = loading st /\
  chatHistory (run (authenticateUser w) st) = chatHistory st.
Proof.
  unfold run, authenticateUser, try_catch, mbind.
  destruct (ethereum w); [destruct (checkAndSignAuthMessage w)|];
    repeat split.
Qed.

(** X4.  When the wallet hands over an account and the signature is
    refused, [handleConnect] still ends with the message that the user was
    authenticated; no signature is stored, and the refusal is only written
    to the console. *)
Theorem handleConnect_signature_refused (address : jsstring)
    (others : list jsstring) (e : error) (st : State) :
  ethereum w = Some (Accounts (address :: others)) ->
  checkAndSignAuthMessage w = SignRejects e ->
  fst (handleConnect w st) = Normal tt /\
  response (run (handleConnect w) st)
  = js "Connected to wallet: " ++ address
    ++ js " and authenticated successfully!" /\
  userAuthSig (run (handleConnect w) st) = userAuthSig st /\
  In (ConsoleError (cross_mark ++ js " Error authenticating user:") (Some e))
     (events (run (handleConnect w) st)).
Proof.
  intros E S.
  unfold run, handleConnect, authenticateUser, try_catch, mbind.
  rewrite E, S. cbn. repeat split.
  rewrite <- !app_assoc. apply in_or_app. right. simpl. tauto.
Qed.

(** What [fetchCryptoPrice] returns: the price that [data] quotes for the
    identifier, or the text that stands for none. *)
Lemma fetchCryptoPrice_result (id : jsstring) (st : State) :
  fst (fetchCryptoPrice w (VStr id) st)
  = Normal
      match axios_get w (price_url id) with
      | AxiosRejects _ => VStr (js "Error fetching price")
      | AxiosResponse None => VStr (js "Price not found")
      | AxiosResponse (Some m) =>
          if truthy (obj_get m id) then
            match get_field (obj_get m id) (js "usd") with
            | Normal usd => or_else usd (VStr (js "Price not found"))
            | Throw _ => VStr (js "Error fetching price")
            end
          else VStr (js "Price not found")
      end.
Proof.
  unfold fetchCryptoPrice, try_catch, mbind, lift. cbn [ToString].
  destruct (axios_get w (price_url id)) as [e|[m|]]; try reflexivity.
  cbn [ret]. destruct (truthy (obj_get m id)); [|reflexivity].
  destruct (get_field (obj_get m id) (js "usd")); reflexivity.
Qed.

(** X5.  [fetchCryptoPrice] never throws and always returns a truthy value:
    a price, or one of the two texts [Error fetching price] and
    [Price not found].  It shows nothing and logs nothing.  A quoted price
    of zero comes back as [Price not found]. *)
Theorem fetchCryptoPrice_always_answers (id : jsstring) (st : State) :
  (exists price,
     fst (fetchCryptoPrice w (VStr id) st) = Normal price /\
     truthy price = true) /\
  response (run (fetchCryptoPrice w (VStr id)) st) = response st /\
  chatHistory (run (fetchCryptoPrice w (VStr id)) st) = chatHistory st /\
  loading (run (fetchCryptoPrice w (VStr id)) st) = loading st /\
  (forall m entry x,
     axios_get w (price_url id) = AxiosResponse (Some m) ->
     obj_get m id = VObj entry ->
     obj_get entry (js "usd") = VNum x ->
     Num.toBoolean x = false ->
     fst (fetchCryptoPrice w (VStr id) st)
     = Normal (VStr (js "Price not found"))).
Proof.
  split; [|split; [|split; [|split]]].
  - rewrite fetchCryptoPrice_result. eexists; split; [reflexivity|].
    destruct (axios_get w (price_url id)) as [e|[m|]]; try reflexivity.
    destruct (truthy (obj_get m id)); [|reflexivity].
    destruct (get_field (obj_get m id) (js "usd")) as [usd|]; [|reflexivity].
    unfold or_else. destruct (truthy usd) eqn:T; [exact T|reflexivity].
  - unfold run, fetchCryptoPrice, try_catch, mbind, lift. cbn [ToString].
    destruct (axios_get w (price_url id)) as [e|[m|]]; try reflexivity.
    cbn [ret]. destruct (truthy (obj_get m id)); [|reflexivity].
    destruct (get_field (obj_get m id) (js "usd")); reflexivity.
  - apply fetchCryptoPrice_keeps_log.
  - unfold run, fetchCryptoPrice, try_catch, mbind, lift. cbn [ToString].
    destruct (axios_get w (price_url id)) as [e|[m|]]; try reflexivity.
    cbn [ret]. destruct (truthy (obj_get m id)); [|reflexivity].
    destruct (get_field (obj_get m id) (js "usd")); reflexivity.
  - intros m entry x A O U Z. rewrite fetchCryptoPrice_result, A, O.
    cbn [truthy get_field]. rewrite U. unfold or_else. cbn [truthy].
    rewrite Z. reflexivity.
Qed.

(** X6.  When the inference service cannot be used, [handleOllamaQuery]
    logs nothing and ends with an error message as the response:
    [Failed to get AI response] for an answer that is not [ok], and
    [Failed to get a response from Ollama] when the request is rejected,
    when the answer has no body, and when a read of the stream is rejected,
    whatever partial text the reads before it had shown. *)
Theorem handleOllamaQuery_failures (query : jsstring) (st : State) :
  (forall body,
     generate w query = FetchResponse false body ->
     response (run (handleOllamaQuery w query) st)
     = js "Failed to get AI response" /\
     chatHistory (run (handleOllamaQuery w query) st) = chatHistory st) /\
  (forall e reads,
     generate w query = FetchRejects e \/
     generate w query = FetchResponse true None \/
     generate w query = FetchResponse true (Some (mkBody reads (Some e))) ->
     response (run (handleOllamaQuery w query) st)
     = js "Failed to get a response from Ollama" /\
     chatHistory (run (handleOllamaQuery w query) st) = chatHistory st).
Proof.
  split.
  - intros body G. split.
    + unfold run, handleOllamaQuery, try_catch, mbind. rewrite G. reflexivity.
    + rewrite handleOllamaQuery_log, G. apply app_nil_r.
  - intros e reads G. split.
    + unfold run, handleOllamaQuery, try_catch, mbind.
      destruct G as [G|[G|G]]; rewrite G; try reflexivity.
      cbn [ret negb fst snd chunks failure].
      pose proof (readLoop_result reads (Some e) [] st) as R.
      destruct (readLoop reads (Some e) [] st) as [[a|e'] st'];
        simpl in R; [discriminate|reflexivity].
    + rewrite handleOllamaQuery_log.
      destruct G as [G|[G|G]]; rewrite G; apply app_nil_r.
Qed.

End MoreHandlerFacts.

Lemma handleConnect_signature_refused_witness :
  response (run (handleConnect wallet_no_signature) initial)
  = js "Connected to wallet: 0xabc and authenticated successfully!" /\
  userAuthSig (run (handleConnect wallet_no_signature) initial) = None.
Proof.
  destruct (handleConnect_signature_refused wallet_no_signature (js "0xabc")
              [] unreachable initial eq_refl eq_refl) as (_ & R & U & _).
  split; [exact R|exact U].
Defined.

Lemma fetchCryptoPrice_always_answers_witness :
  fst (fetchCryptoPrice zero_quote (VStr (js "bitcoin")) initial)
  = Normal (VStr (js "Price not found")).
Proof.
  destruct (fetchCryptoPrice_always_answers zero_quote (js "bitcoin") initial)
    as (_ & _ & _ & _ & Z).
  apply (Z [(js "bitcoin", VObj [(js "usd", VNum (Num.of_decimal false 0 0))])]
           [(js "usd", VNum (Num.of_decimal false 0 0))]
           (Num.of_decimal false 0 0));
    vm_compute; reflexivity.
Defined.

Lemma handleOllamaQuery_failures_witness :
  response (run (handleOllamaQuery offline (js "hi")) initial)
  = js "Failed to get a response from Ollama".
Proof.
  destruct (handleOllamaQuery_failures offline (js "hi") initial) as [_ F].
  apply (F unreachable []). left. reflexivity.
Defined.

(** ** More on [handleQuery] *)

(** X7.  For every query, when every call that [handleQuery] awaits is
    settled (resolved or rejected) and the stream it reads ends, or fails,
    after finitely many reads, which is all that a [World] describes,
    [handleQuery] returns without throwing and its last act is
    [setLoading(false)].  A call that never settles is not described by a
    [World], and nothing is stated about it. *)
Theorem handleQuery_settles (w : World) (query : jsstring) (st : State) :
  fst (handleQuery w query st) = Normal tt /\
  loading (submit w query st) = false /\
  exists before, events (submit w query st) = before ++ [SetLoading false].
Proof.
  unfold submit, handleQuery, try_finally.
  match goal with
  | |- context [try_catch ?body onError st] =>
      assert (total (try_catch body onError)) as T
          by (apply total_try_catch; intros e; unfold onError; by_cases);
      destruct (T st) as [[] E];
      destruct (try_catch body onError st) as [[[]|e] st']
  end; simpl in E; try discriminate.
  simpl. repeat split. eexists; reflexivity.
Qed.

(** X8.  The [catch] of [handleQuery]: when the price that comes back for a
    PriceQuery cannot be converted to a string (an object with a property
    [toString] of its own), the query gets no Agent entry and the response
    is [Failed to get a response]. *)
Theorem handleQuery_price_unprintable (w : World) (query id : jsstring)
    (m entry quote : list (jsstring * value)) (x : value) (st : State) :
  classify query = PriceQuery (VStr id) ->
  axios_get w (price_url id) = AxiosResponse (Some m) ->
  obj_get m id = VObj entry ->
  obj_get entry (js "usd") = VObj quote ->
  own quote (js "toString") = Some x ->
  chatHistory (submit w query st) = chatHistory st ++ [mkMsg query user] /\
  response (submit w query st) = js "Failed to get a response".
Proof.
  intros C A O U T. rewrite (handleQuery_price w query (VStr id) st C).
  rewrite !run_try_catch_seq by auto with handlers.
  set (st1 := run (appendChat (mkMsg query user)) _).
  assert (chatHistory st1 = chatHistory st ++ [mkMsg query user]) as L1
      by reflexivity.
  clearbody st1.
  pose proof (fetchCryptoPrice_keeps_log w (VStr id) st1) as K.
  pose proof (fetchCryptoPrice_result w id st1) as R.
  rewrite A, O in R. cbn [truthy get_field] in R. rewrite U in R.
  unfold or_else in R. cbn [truthy] in R.
  unfold run at 2 4. unfold try_catch, mbind.
  destruct (fetchCryptoPrice w (VStr id) st1) as [[p|e] st2];
    simpl in R, K; [injection R as ->|discriminate].
  unfold lift, price_message. cbn [ToString bind]. rewrite T.
  cbn. rewrite K, L1. split; reflexivity.
Qed.

Lemma handleQuery_price_unprintable_witness :
  chatHistory (submit odd_quote (js "price of btc") initial)
  = [mkMsg (js "price of btc") user] /\
  response (submit odd_quote (js "price of btc") initial)
  = js "Failed to get a response".
Proof.
  apply (handleQuery_price_unprintable odd_quote (js "price of btc")
           (js "bitcoin")
           [(js "bitcoin", VObj [(js "usd", VObj [(js "toString", VNull)])])]
           [(js "usd", VObj [(js "toString", VNull)])]
           [(js "toString", VNull)] VNull initial);
    vm_compute; reflexivity.
Defined.

(** *** Sessions *)

Lemma entries_of_app (who : Sender) (a b : list ChatMessage) :
  entries_of who (a ++ b) = entries_of who a ++ entries_of who b.
Proof. unfold entries_of. apply filter_app. Qed.

(** What one submission adds to the log. *)
Lemma submit_adds (w : World) (query : jsstring) (st : State) :
  exists agent,
    chatHistory (submit w query st)
    = chatHistory st
      ++ (if is_empty (trim query) then [] else mkMsg query user :: agent) /\
    (List.length agent <= 1)%nat /\
    entries_of user agent = [] /\ entries_of ai agent = agent.
Proof.
  assert (forall agent : list ChatMessage,
            (List.length agent <= 1)%nat ->
            (forall m, In m agent -> sender m = ai) ->
            entries_of user agent = [] /\ entries_of ai agent = agent) as F.
  { intros [|m [|m' l]] L S; simpl in *; try lia; [tauto|].
    rewrite (S m); auto. }
  destruct (is_empty (trim query)) eqn:E1.
  { exists []. rewrite (handleQuery_empty w query st E1).
    simpl. rewrite app_nil_r. repeat split; auto. }
  destruct (classify query) as [|symbol|text|reason] eqn:C.
  - exists []. rewrite (handleQuery_connect w query st C), log_finally.
    rewrite !log_seq by auto with handlers.
    unfold run at 1. rewrite handleConnect_keeps_log.
    repeat split; auto.
  - rewrite (handleQuery_price w query symbol st C), log_finally.
    destruct (price_log w query symbol st) as (agent & L & N & S).
    exists agent. split; [exact L|]. split; [exact N|]. apply F; auto.
  - exists (answer (generate w query)).
    rewrite (handleQuery_generic w query text st C), log_finally.
    rewrite !log_seq by auto with handlers.
    rewrite handleOllamaQuery_log. simpl. rewrite <- app_assoc.
    split; [reflexivity|]. unfold answer.
    destruct (generate w query) as [e|[|] [[reads [e|]]|]]; simpl;
      repeat split; auto.
  - exists [].
    assert (reason = js "Please provide a valid cryptocurrency name or symbol.")
      as ->.
    { revert C. unfold classify. rewrite E1.
      destruct (str_eqb _ _); [discriminate|].
      destruct (includes _ _); [|discriminate].
      destruct (negb _); [|discriminate].
      intros E; injection E as <-; reflexivity. }
    rewrite (handleQuery_no_token w query st E1 C).
    repeat split; auto.
Qed.

(** X9.  Over any sequence of submissions the log only grows: what was
    logged stays, in place.  The User entries that are added are the texts
    of the submissions that are not blank, in the order they were made, and
    there are never more Agent entries added than User entries. *)
Theorem session_log (steps : list (World * jsstring)) (st : State) :
  exists added,
    chatHistory (session steps st) = chatHistory st ++ added /\
    entries_of user added
    = map (fun step => mkMsg (snd step) user) (filter has_text steps) /\
    (List.length (entries_of ai added)
     <= List.length (entries_of user added))%nat.
Proof.
  revert st. induction steps as [|[w query] steps IH]; intros st.
  - exists []. simpl. rewrite app_nil_r. repeat split; auto.
  - cbn [session fold_left fst snd].
    destruct (IH (submit w query st)) as (rest & L & U & A).
    destruct (submit_adds w query st) as (agent & L1 & N & Ua & Aa).
    unfold session in L. rewrite L, L1.
    unfold has_text at 1. cbn [filter snd].
    destruct (is_empty (trim query)); cbn [negb].
    + exists rest. rewrite app_nil_r. repeat split; auto.
    + exists ((mkMsg query user :: agent) ++ rest).
      rewrite <- app_assoc. split; [reflexivity|].
      rewrite !entries_of_app. cbn [entries_of filter sender map].
      fold (entries_of user agent). fold (entries_of ai agent).
      rewrite Ua, Aa, U. split; [reflexivity|].
      rewrite <- U, !length_app. simpl. lia.
Qed.

(** ** Well-formed fragments *)

Lemma byte_of_unit (c : N) :
  (c < 128)%N ->
  Byte.to_N (match Byte.of_N c with Some b => b | None => x00 end) = c.
Proof.
  intros H. destruct (Byte.of_N c) as [b|] eqn:E.
  - apply Byte.to_of_N. exact E.
  - apply Byte.of_N_None_iff in E. lia.
Qed.

Lemma run_ascii (t : jsstring) :
  forallb (fun c => (c <? 128)%N) t = true ->
  TextDecoder.run TextDecoder.fresh (bytes_of t) = t.
Proof.
  induction t as [|c t IH]; [reflexivity|].
  cbn [forallb]. rewrite andb_true_iff. intros [Hc Ht].
  apply N.ltb_lt in Hc.
  cbn [bytes_of map TextDecoder.run]. rewrite (byte_of_unit c Hc).
  unfold TextDecoder.step. cbn [TextDecoder.needed TextDecoder.fresh].
  cbn [N.eqb]. unfold TextDecoder.lead.
  destruct (N.leb_spec c 127); [|lia].
  cbn [app]. f_equal. apply IH. exact Ht.
Qed.

Lemma utf16_ascii (t : jsstring) :
  forallb (fun c => (c <? 128)%N) t = true ->
  flat_map TextDecoder.utf16 t = t.
Proof.
  induction t as [|c t IH]; [reflexivity|].
  cbn [forallb]. rewrite andb_true_iff. intros [Hc Ht].
  apply N.ltb_lt in Hc. cbn [flat_map]. unfold TextDecoder.utf16 at 1.
  destruct (N.ltb_spec c 65536); [|lia].
  cbn [app]. f_equal. apply IH. exact Ht.
Qed.

Lemma plain_ascii (s : jsstring) :
  forallb plain s = true -> forallb (fun c => (c <? 128)%N) s = true.
Proof.
  rewrite !forallb_forall. intros H c I. specialize (H c I).
  unfold plain in H. rewrite !andb_true_iff in H. tauto.
Qed.

(** The bytes of a fragment decode to its text. *)
Lemma decode_fragment (s : jsstring) :
  forallb plain s = true ->
  TextDecoder.decode (bytes_of (fragment s)) = fragment s.
Proof.
  intros P. apply plain_ascii in P.
  assert (forallb (fun c => (c <? 128)%N) (fragment s) = true) as A.
  { unfold fragment. rewrite !forallb_app, P. reflexivity. }
  unfold TextDecoder.decode. rewrite (run_ascii _ A).
  unfold fragment at 1. cbn [jq js map list_ascii_of_string app N_of_ascii
                             N.eqb Pos.eqb].
  fold (fragment s).
  change (flat_map TextDecoder.utf16 (fragment s) = fragment s).
  apply utf16_ascii. exact A.
Qed.

Lemma lex_string_plain (s : jsstring) :
  forall acc rest,
    forallb plain s = true ->
    JSON.lex_string (s ++ 34%N :: rest) acc = JSON.POk (rev acc ++ s) rest.
Proof.
  induction s as [|c s IH]; intros acc rest.
  - intros _. simpl. rewrite app_nil_r. reflexivity.
  - cbn [forallb]. rewrite andb_true_iff. intros [Hc Hs].
    unfold plain in Hc. rewrite !andb_true_iff, !negb_true_iff in Hc.
    destruct Hc as [[[L U] Q] B].
    cbn [app JSON.lex_string]. rewrite Q, B.
    apply N.leb_le in L. destruct (N.ltb_spec c 32); [lia|].
    rewrite (IH (c :: acc) rest Hs). cbn [rev].
    rewrite <- app_assoc. reflexivity.
Qed.

Lemma parse_fragment (s : jsstring) :
  forallb plain s = true ->
  JSON.parse (fragment s) = Normal (VObj [(js "response", VStr s)]).
Proof.
  intros P. unfold JSON.parse.
  assert (exists f, (2 * List.length (fragment s) + 1 = S (S (S f)))%nat)
    as [f ->].
  { assert (1 <= List.length (fragment s))%nat as L
        by (unfold fragment; rewrite length_app; simpl; lia).
    exists (2 * List.length (fragment s) + 1 - 3)%nat. lia. }
  assert (jq "{'response':'"
          = [123; 34; 114; 101; 115; 112; 111; 110; 115; 101; 34; 58; 34]%N)
    as Open by (vm_compute; reflexivity).
  assert (jq "'}" = [34; 125]%N) as Close by (vm_compute; reflexivity).
  unfold fragment. rewrite Open, Close. simpl.
  rewrite (lex_string_plain s [] [125%N] P). reflexivity.
Qed.

(** X10.  A read that holds one fragment [{"response":"s"}], with [s] made
    of printable ASCII characters other than the quotation mark and the
    reverse solidus, contributes exactly [s]; a stream that delivers such
    fragments one per read is assembled into the concatenation of their
    texts, each published with the text before it. *)
Theorem well_formed_stream (deltas : list jsstring) (st : State) :
  Forall (fun s => forallb plain s = true) deltas ->
  Forall (fun s => contribution (bytes_of (fragment s)) = s) deltas /\
  fst (readLoop (map (fun s => bytes_of (fragment s)) deltas) None [] st)
  = Normal (List.concat deltas) /\
  response (snd (readLoop (map (fun s => bytes_of (fragment s)) deltas)
                   None [] st))
  = response st ++ List.concat deltas.
Proof.
  intros F.
  assert (Forall (fun s => contribution (bytes_of (fragment s)) = s) deltas)
    as C.
  { eapply Forall_impl; [|exact F]. intros s P. cbv beta in P.
    unfold contribution, chunkDelta.
    rewrite (decode_fragment s P), (parse_fragment s P).
    cbn [bind get_field]. unfold obj_get. cbn [own].
    rewrite str_eqb_refl. unfold or_else. cbn [truthy].
    destruct s; reflexivity. }
  assert (map contribution (map (fun s => bytes_of (fragment s)) deltas)
          = deltas) as E.
  { rewrite map_map. clear F. induction C as [|s l Hs C IH]; [reflexivity|].
    cbn [map]. rewrite Hs, IH. reflexivity. }
  split; [exact C|].
  rewrite readLoop_result, readLoop_response, E. split; reflexivity.
Qed.

Lemma well_formed_stream_witness :
  fst (readLoop (map (fun s => bytes_of (fragment s))
                   [js "The price "; js "is up."]) None [] initial)
  = Normal (js "The price is up.").
Proof.
  apply (well_formed_stream [js "The price "; js "is up."] initial).
  repeat constructor.
Defined.

(** ** [connectLit] *)

Lemma connectLit_set (construct connect : option error) (st : LitState) :
  litNodeClient st = true -> connectLit construct connect st = st.
Proof. intros E. unfold connectLit. rewrite E. reflexivity. Qed.

Lemma connectLit_calls_set (calls : list (option error * option error))
    (st : LitState) :
  litNodeClient st = true -> connectLit_calls calls st = st.
Proof.
  revert st. induction calls as [|[c k] calls IH]; intros st E;
    [reflexivity|].
  cbn [connectLit_calls fold_left fst snd]. rewrite (connectLit_set c k st E).
  apply IH. exact E.
Qed.

Lemma connect_count_app (a : LitState) (evs : list LitEvent) :
  connect_count (mkLit (litNodeClient a) (lit_events a ++ evs))
  = (connect_count a
     + List.length (filter (fun ev => match ev with
                                      | LitConnect => true
                                      | _ => false
                                      end) evs))%nat.
Proof.
  unfold connect_count. simpl. rewrite filter_app, length_app. reflexivity.
Qed.

(** X12.  [connectLit] calls [connect] on a client at most once, however
    often it is called (as long as the variable kept its client): the
    variable is set before the connection is awaited, so once a client was
    built every later call does nothing, also after a connection that
    failed, which is never tried again.  A call in which no client could be
    built leaves the variable empty. *)
Theorem connectLit_connects_once (calls : list (option error * option error))
    (st : LitState) :
  (litNodeClient st = true -> connectLit_calls calls st = st) /\
  (forall connect more,
     litNodeClient st = false ->
     litNodeClient (connectLit None connect st) = true /\
     connectLit_calls more (connectLit None connect st)
     = connectLit None connect st) /\
  (forall e connect,
     litNodeClient st = false ->
     litNodeClient (connectLit (Some e) connect st) = false /\
     connect_count (connectLit (Some e) connect st) = connect_count st) /\
  (connect_count (connectLit_calls calls st) <= connect_count st + 1)%nat.
Proof.
  split; [apply connectLit_calls_set|].
  assert (forall connect s,
            litNodeClient s = false ->
            litNodeClient (connectLit None connect s) = true) as B.
  { intros connect s E. unfold connectLit. rewrite E.
    destruct connect; reflexivity. }
  split; [|split].
  - intros connect more E. split; [apply B; exact E|].
    apply connectLit_calls_set. apply B. exact E.
  - intros e connect E. unfold connectLit. rewrite E. cbn [negb].
    split; [reflexivity|]. unfold connect_count. cbn [lit_events].
    rewrite <- !app_assoc, filter_app. cbn. rewrite app_nil_r. reflexivity.
  - revert st. induction calls as [|[c k] calls IH]; intros st;
      [simpl; lia|].
    cbn [connectLit_calls fold_left fst snd].
    destruct (litNodeClient st) eqn:E.
    { rewrite (connectLit_set c k st E).
      fold (connectLit_calls calls st).
      rewrite (connectLit_calls_set calls st E). lia. }
    destruct c as [e|].
    + fold (connectLit_calls calls (connectLit (Some e) k st)).
      specialize (IH (connectLit (Some e) k st)).
      assert (connect_count (connectLit (Some e) k st) = connect_count st)
        as C.
      { unfold connectLit. rewrite E. cbn [negb].
        unfold connect_count. cbn [lit_events].
        rewrite <- !app_assoc, filter_app. cbn. rewrite app_nil_r.
        reflexivity. }
      lia.
    + fold (connectLit_calls calls (connectLit None k st)).
      rewrite (connectLit_calls_set calls _ (B k st E)).
      unfold connectLit. rewrite E. cbn [negb].
      unfold connect_count. destruct k; cbn [lit_events litNodeClient];
        rewrite <- !app_assoc, filter_app, length_app; cbn; lia.
Qed.

Lemma connectLit_connects_once_witness :
  connectLit_calls [(None, None); (None, Some unreachable)]
    (connectLit None (Some unreachable) (mkLit false []))
  = connectLit None (Some unreachable) (mkLit false []).
Proof.
  destruct (connectLit_connects_once [] (mkLit false [])) as (_ & R & _).
  apply (R (Some unreachable) [(None, None); (None, Some unreachable)]).
  reflexivity.
Defined.

(** ** The dashboard *)

(** X13.  The three fetchers that the dashboard starts when it is mounted
    write to different state variables: in whatever order their answers
    arrive, the dashboard ends up showing the same data, and it has stopped
    loading, whether the answers were responses or failures. *)
Theorem dashboard_order_irrelevant (r1 r2 r3 : DataReply) (st : DashState) :
  let final :=
    fetchPriceHistory r3 (fetchTopGainers r2 (fetchCryptoData r1 st)) in
  same_view (fetchTopGainers r2 (fetchPriceHistory r3 (fetchCryptoData r1 st)))
            final /\
  same_view (fetchPriceHistory r3 (fetchCryptoData r1 (fetchTopGainers r2 st)))
            final /\
  same_view (fetchCryptoData r1 (fetchPriceHistory r3 (fetchTopGainers r2 st)))
            final /\
  same_view (fetchTopGainers r2 (fetchCryptoData r1 (fetchPriceHistory r3 st)))
            final /\
  same_view (fetchCryptoData r1 (fetchTopGainers r2 (fetchPriceHistory r3 st)))
            final /\
  dash_loading final = false.
Proof.
  intros final. subst final.
  unfold same_view, fetchPriceHistory, fetchTopGainers, fetchCryptoData.
  destruct r1 as [e1|d1], r2 as [e2|d2], r3 as [e3|d3];
    try destruct (get_field d3 (js "prices")); cbn; repeat split.
Qed.

Section ChartFacts.

Variable dateLabel : value -> completion jsstring.

Lemma map_completion_length {A B : Type} (f : A -> completion B)
      (l : list A) (r : list B) :
  map_completion f l = Normal r -> List.length r = List.length l.
Proof.
  revert r. induction l as [|x l IH]; intros r; cbn [map_completion].
  - intros E; injection E as <-; reflexivity.
  - destruct (f x) as [y|e]; cbn [bind]; [|discriminate].
    destruct (map_completion f l) as [ys|e]; cbn [bind]; [|discriminate].
    intros E; injection E as <-. simpl. rewrite (IH ys eq_refl). reflexivity.
Qed.

Lemma prices_of_pairs (pairs : list (value * value)) :
  map_completion (fun item => item_at item 1)
    (map (fun p => VArr [fst p; snd p]) pairs)
  = Normal (map snd pairs).
Proof.
  induction pairs as [|p pairs IH]; [reflexivity|].
  cbn [map map_completion item_at nth bind]. rewrite IH. reflexivity.
Qed.

(** X14.  For a price history of pairs (time, price) whose times can be
    formatted, [formatChartData] returns one data set, labelled [Price],
    with the prices in the order of the history, and as many labels as
    there are pairs.  An empty history gives an empty chart. *)
Theorem formatChartData_pairs (pairs : list (value * value)) :
  (forall p, In p pairs -> exists l, dateLabel (fst p) = Normal l) ->
  exists ls,
    formatChartData dateLabel (VArr (map (fun p => VArr [fst p; snd p]) pairs))
    = Normal (mkChart ls
                [mkDataset (js "Price") (map snd pairs) (js "#00f")
                   (Num.of_decimal false 1 (-1)) false]) /\
    List.length ls = List.length pairs /\
    (pairs = [] -> ls = []).
Proof.
  intros D. unfold formatChartData. rewrite prices_of_pairs.
  assert (exists ls,
            map_completion
              (fun item => let* t := item_at item 0 in dateLabel t)
              (map (fun p => VArr [fst p; snd p]) pairs) = Normal ls) as [ls E].
  { induction pairs as [|p pairs IH]; [exists []; reflexivity|].
    destruct (D p (or_introl eq_refl)) as [l Hl].
    destruct IH as [ls E]; [intros q I; apply D; right; exact I|].
    exists (l :: ls). cbn [map map_completion item_at nth bind].
    rewrite Hl, E. reflexivity. }
  exists ls. rewrite E. cbn [bind]. split; [reflexivity|].
  apply map_completion_length in E. rewrite length_map in E.
  split; [exact E|]. intros ->. destruct ls; [reflexivity|discriminate].
Qed.

(** X15.  [formatChartData] throws on everything but an array.  An answer
    for the price history that is an object without [prices] stores
    [undefined] as the history, so that the call of [formatChartData] of
    the next render throws. *)
Theorem formatChartData_needs_array (data : value)
    (m : list (jsstring * value)) (st : DashState) :
  ((forall items, data <> VArr items) ->
   formatChartData dateLabel data = Throw TypeError) /\
  (own m (js "prices") = None ->
   priceHistory (fetchPriceHistory (DataResponse (VObj m)) st) = VUndefined /\
   formatChartData dateLabel
     (priceHistory (fetchPriceHistory (DataResponse (VObj m)) st))
   = Throw TypeError).
Proof.
  split.
  - intros N. destruct data; try reflexivity. exfalso. exact (N l eq_refl).
  - intros O.
    assert (priceHistory (fetchPriceHistory (DataResponse (VObj m)) st)
            = VUndefined) as E.
    { unfold fetchPriceHistory, get_field, obj_get. rewrite O. reflexivity. }
    rewrite E. split; reflexivity.
Qed.

End ChartFacts.

Lemma formatChartData_pairs_witness :
  exists ls,
    formatChartData ToString
      (VArr (map (fun p => VArr [fst p; snd p])
               [(VStr (js "Monday"), VNum (Num.of_decimal false 67000 0))]))
    = Normal (mkChart ls
                [mkDataset (js "Price")
                   (map snd [(VStr (js "Monday"),
                              VNum (Num.of_decimal false 67000 0))])
                   (js "#00f") (Num.of_decimal false 1 (-1)) false]) /\
    List.length ls = 1%nat /\
    ([(VStr (js "Monday"), VNum (Num.of_decimal false 67000 0))] = [] ->
     ls = []).
Proof.
  apply (formatChartData_pairs ToString
           [(VStr (js "Monday"), VNum (Num.of_decimal false 67000 0))]).
  intros p [<-|[]]. eexists. reflexivity.
Defined.

Lemma formatChartData_needs_array_witness :
  formatChartData ToString
    (priceHistory
       (fetchPriceHistory (DataResponse (VObj [(js "error", VStr (js "x"))]))
          dash_initial))
  = Throw TypeError.
Proof.
  apply (formatChartData_needs_array ToString VNull
           [(js "error", VStr (js "x"))] dash_initial).
  reflexivity.
Defined.

(** ** What is shown and what is logged *)

(** X11.  When the stream of a generic query ends, the response on the page
    is the text that is logged as the answer: the response is emptied when
    the query is submitted and every read adds to both the same text. *)
Theorem shown_is_logged (w : World) (query : jsstring)
    (reads : list (list byte)) (st : State) :
  classify query = GenericQuery query ->
  generate w query = FetchResponse true (Some (mkBody reads None)) ->
  response (submit w query st) = List.concat (map contribution reads) /\
  chatHistory (submit w query st)
  = chatHistory st
    ++ [mkMsg query user; mkMsg (response (submit w query st)) ai].
Proof.
  intros C G.
  assert (response (submit w query st)
          = List.concat (map contribution reads)) as R.
  { rewrite (handleQuery_generic w query query st C).
    rewrite !run_seq by auto with handlers.
    set (st1 := run (appendChat (mkMsg query user)) _).
    assert (response st1 = []) as R1 by reflexivity. clearbody st1.
    unfold run, handleOllamaQuery, try_catch, mbind. rewrite G.
    cbn [ret negb fst snd chunks failure].
    pose proof (readLoop_result reads None [] st1) as F.
    pose proof (readLoop_response reads None [] st1) as P.
    destruct (readLoop reads None [] st1) as [[full|e] st2];
      simpl in F, P; [|discriminate].
    cbn. rewrite P, R1. reflexivity. }
  split; [exact R|]. rewrite R.
  rewrite (handleQuery_generic w query query st C), log_finally.
  rewrite !log_seq by auto with handlers.
  rewrite handleOllamaQuery_log, G. simpl. rewrite <- app_assoc.
  reflexivity.
Qed.

Lemma shown_is_logged_witness :
  response (submit (streaming [He; not_json; llo]) (js "hi") initial)
  = js "Hello".
Proof.
  rewrite (proj1 (shown_is_logged (streaming [He; not_json; llo]) (js "hi")
                    [He; not_json; llo] initial eq_refl eq_refl)).
  vm_compute; reflexivity.
Defined.

(** ** The answer to a price query, case by case *)

(** A resolved symbol is a string, or a member of [Object.prototype]. *)
Lemma resolveSymbol_shape (token : jsstring) :
  (exists s, resolveSymbol token = VStr s) \/
  (exists f, resolveSymbol token = VNative f).
Proof.
  unfold resolveSymbol, obj_get, or_else.
  destruct (own cryptoSymbolMappings (toLowerCase token)) as [v|] eqn:O.
  - rewrite (mapping_values_truthy _ _ O).
    apply mapping_values in O. simpl in O.
    repeat (destruct O as [O|O]; [left; eexists; symmetry; exact O|]).
    contradiction.
  - unfold object_prototype.
    destruct (str_eqb _ _); [right; eexists; reflexivity|].
    destruct (str_eqb _ _); [right; eexists; reflexivity|].
    destruct (existsb _ _); [right|left]; eexists; reflexivity.
Qed.

(** The symbol of a PriceQuery can always be written in the URL and in the
    answer. *)
Lemma price_symbol_printable (query : jsstring) (symbol : value) :
  classify query = PriceQuery symbol -> exists id, ToString symbol = Normal id.
Proof.
  unfold classify.
  destruct (is_empty (trim query)); [discriminate|].
  destruct (str_eqb _ _); [discriminate|].
  destruct (includes _ _); [|discriminate].
  destruct (negb _); [discriminate|].
  intros E; injection E as <-. unfold extractCryptoSymbol.
  destruct (match_price_of query) as [token|]; [|eexists; reflexivity].
  destruct (resolveSymbol_shape token) as [[s ->]|[f ->]];
    eexists; reflexivity.
Qed.

Section PriceCases.

Variable w : World.

Lemma fetchCryptoPrice_value (symbol : value) (id : jsstring) (st : State) :
  ToString symbol = Normal id ->
  fst (fetchCryptoPrice w symbol st)
  = Normal
      match axios_get w (price_url id) with
      | AxiosRejects _ => VStr (js "Error fetching price")
      | AxiosResponse None => VStr (js "Price not found")
      | AxiosResponse (Some m) =>
          if truthy (obj_get m id) then
            match get_field (obj_get m id) (js "usd") with
            | Normal usd => or_else usd (VStr (js "Price not found"))
            | Throw _ => VStr (js "Error fetching price")
            end
          else VStr (js "Price not found")
      end.
Proof.
  intros S. unfold fetchCryptoPrice, try_catch, mbind, lift. rewrite S.
  destruct (axios_get w (price_url id)) as [e|[m|]]; try reflexivity.
  cbn [ret]. destruct (truthy (obj_get m id)); [|reflexivity].
  destruct (get_field (obj_get m id) (js "usd")); reflexivity.
Qed.

(** The state after a price query, from the price that came back. *)
Lemma handleQuery_price_outcome (query : jsstring) (symbol price : value)
      (id : jsstring) (st : State) :
  classify query = PriceQuery symbol ->
  ToString symbol = Normal id ->
  (forall st', fst (fetchCryptoPrice w symbol st') = Normal price) ->
  match ToString price with
  | Normal text =>
      chatHistory (submit w query st)
      = chatHistory st ++ [mkMsg query user; mkMsg (price_text id text) ai] /\
      response (submit w query st) = price_text id text
  | Throw _ =>
      chatHistory (submit w query st) = chatHistory st ++ [mkMsg query user] /\
      response (submit w query st) = js "Failed to get a response"
  end.
Proof.
  intros C S F. rewrite (handleQuery_price w query symbol st C).
  rewrite !run_try_catch_seq by auto with handlers.
  set (st1 := run (appendChat (mkMsg query user)) _).
  assert (chatHistory st1 = chatHistory st ++ [mkMsg query user]) as L1
      by reflexivity.
  clearbody st1.
  pose proof (fetchCryptoPrice_keeps_log w symbol st1) as K.
  specialize (F st1).
  match goal with
  | |- context [run (try_catch ?rest onError) st1] =>
      assert (run (try_catch rest onError) st1
              = match ToString price with
                | Normal text =>
                    run (setResponse (price_text id text) ;;
                         appendChat (mkMsg (price_text id text) ai))
                      (snd (fetchCryptoPrice w symbol st1))
                | Throw e =>
                    run (onError e) (snd (fetchCryptoPrice w symbol st1))
                end) as ->
  end.
  { unfold run, try_catch, mbind.
    destruct (fetchCryptoPrice w symbol st1) as [[p|e] st2];
      simpl in F; [injection F as ->|discriminate].
    unfold lift, price_message. rewrite S. cbn [bind].
    destruct (ToString price); reflexivity. }
  destruct (ToString price) as [text|e].
  - cbn [bind run mbind setResponse setResponseWith appendChat setLoading
         emit fst snd response loading chatHistory userAuthSig events].
    rewrite K, L1, <- app_assoc. split; reflexivity.
  - cbn [bind run mbind onError console_error setResponse setResponseWith
         setLoading emit fst snd response loading chatHistory userAuthSig
         events].
    rewrite K, L1. split; reflexivity.
Qed.

(** What the price service answers is one of: an error, an answer without a
    price for the identifier, an answer with a truthy [usd] for it. *)
Lemma price_replies (id : jsstring) :
  (exists e, axios_get w (price_url id) = AxiosRejects e) \/
  (exists data,
     axios_get w (price_url id) = AxiosResponse data /\ no_price data id) \/
  (exists m usd,
     axios_get w (price_url id) = AxiosResponse (Some m) /\
     truthy (obj_get m id) = true /\
     get_field (obj_get m id) (js "usd") = Normal usd /\
     truthy usd = true).
Proof.
  destruct (axios_get w (price_url id)) as [e|[m|]].
  - left. exists e. reflexivity.
  - destruct (truthy (obj_get m id)) eqn:T.
    + assert (exists usd, get_field (obj_get m id) (js "usd") = Normal usd)
        as [usd G].
      { destruct (obj_get m id); try discriminate; eexists; reflexivity. }
      destruct (truthy usd) eqn:U.
      * right. right. exists m, usd. auto.
      * right. left. exists (Some m). split; [reflexivity|].
        right. exists usd. auto.
    + right. left. exists (Some m). split; [reflexivity|]. left. exact T.
  - right. left. exists None. split; [reflexivity|]. exact I.
Qed.

End PriceCases.

(** C1, amended.  For every PriceQuery, with [id] the resolved symbol as it
    is written in the URL and in the answer:
    - when the price service errors, exactly one Agent entry is added after
      the User entry, [The current price of id is $Error fetching price],
      and the same text is the response;
    - when the answer carries no price for the symbol (no body, no entry
      for the symbol, or a [usd] that is missing or falsy), the entry and
      the response read [The current price of id is $Price not found];
    - when the answer carries a truthy [usd] that can be written as text,
      the entry and the response quote it;
    - when the answer carries a truthy [usd] that cannot be written as
      text, no Agent entry is added and the response is
      [Failed to get a response].
    One of the first three conditions, with the fourth as the other half
    of the third, always holds. *)
Theorem C1_price_answer (w : World) (query : jsstring) (symbol : value)
    (st : State) :
  classify query = PriceQuery symbol ->
  exists id,
    ToString symbol = Normal id /\
    let answered price :=
      chatHistory (submit w query st)
      = chatHistory st ++ [mkMsg query user; mkMsg (price_text id price) ai]
      /\ response (submit w query st) = price_text id price in
    (forall e,
       axios_get w (price_url id) = AxiosRejects e ->
       answered (js "Error fetching price")) /\
    (forall data,
       axios_get w (price_url id) = AxiosResponse data ->
       no_price data id ->
       answered (js "Price not found")) /\
    (forall m usd text,
       axios_get w (price_url id) = AxiosResponse (Some m) ->
       truthy (obj_get m id) = true ->
       get_field (obj_get m id) (js "usd") = Normal usd ->
       truthy usd = true ->
       ToString usd = Normal text ->
       answered text) /\
    (forall m usd e,
       axios_get w (price_url id) = AxiosResponse (Some m) ->
       truthy (obj_get m id) = true ->
       get_field (obj_get m id) (js "usd") = Normal usd ->
       truthy usd = true ->
       ToString usd = Throw e ->
       chatHistory (submit w query st) = chatHistory st ++ [mkMsg query user]
       /\ response (submit w query st) = js "Failed to get a response") /\
    ((exists e, axios_get w (price_url id) = AxiosRejects e) \/
     (exists data,
        axios_get w (price_url id) = AxiosResponse data /\ no_price data id)
     \/
     (exists m usd,
        axios_get w (price_url id) = AxiosResponse (Some m) /\
        truthy (obj_get m id) = true /\
        get_field (obj_get m id) (js "usd") = Normal usd /\
        truthy usd = true)).
Proof.
  intros C. destruct (price_symbol_printable query symbol C) as [id S].
  exists id. split; [exact S|]. cbv zeta beta.
  assert (forall price,
            (forall st', fst (fetchCryptoPrice w symbol st') = Normal price) ->
            match ToString price with
            | Normal text =>
                chatHistory (submit w query st)
                = chatHistory st
                  ++ [mkMsg query user; mkMsg (price_text id text) ai] /\
                response (submit w query st) = price_text id text
            | Throw _ =>
                chatHistory (submit w query st)
                = chatHistory st ++ [mkMsg query user] /\
                response (submit w query st) = js "Failed to get a response"
            end) as O.
  { intros price F.
    exact (handleQuery_price_outcome w query symbol price id st C S F). }
  split; [|split; [|split; [|split]]]; [| | | |apply price_replies].
  - intros e E.
    apply (O (VStr (js "Error fetching price"))).
    intros st'. rewrite (fetchCryptoPrice_value w symbol id st' S), E.
    reflexivity.
  - intros data E N.
    apply (O (VStr (js "Price not found"))).
    intros st'. rewrite (fetchCryptoPrice_value w symbol id st' S), E.
    destruct data as [m|]; [|reflexivity].
    destruct (truthy (obj_get m id)) eqn:T; [|reflexivity].
    destruct N as [N|(usd & G & F)]; [congruence|].
    rewrite G. unfold or_else. rewrite F. reflexivity.
  - intros m usd text E T G U P.
    specialize (O usd). rewrite P in O. apply O.
    intros st'. rewrite (fetchCryptoPrice_value w symbol id st' S), E, T, G.
    unfold or_else. rewrite U. reflexivity.
  - intros m usd e E T G U P.
    specialize (O usd). rewrite P in O. apply O.
    intros st'. rewrite (fetchCryptoPrice_value w symbol id st' S), E, T, G.
    unfold or_else. rewrite U. reflexivity.
Qed.

Lemma C1_price_answer_witness :
  (chatHistory (submit offline (js "price of btc") initial)
   = [mkMsg (js "price of btc") user;
      mkMsg (js "The current price of bitcoin is $Error fetching price") ai])
  /\
  (chatHistory (submit quoting (js "price of BTC") initial)
   = [mkMsg (js "price of BTC") user;
      mkMsg (js "The current price of bitcoin is $67000.12") ai]).
Proof.
  split.
  - destruct (C1_price_answer offline (js "price of btc")
                (VStr (js "bitcoin")) initial)
      as (id & S & R & _); [vm_compute; reflexivity|].
    injection S as <-.
    apply (R unreachable). reflexivity.
  - destruct (C1_price_answer quoting (js "price of BTC")
                (VStr (js "bitcoin")) initial)
      as (id & S & _ & _ & Q & _); [vm_compute; reflexivity|].
    injection S as <-.
    destruct (Q [(js "bitcoin",
                  VObj [(js "usd",
                         VNum (Num.of_decimal false 6700012 (-2)))])]
                (VNum (Num.of_decimal false 6700012 (-2)))
                (js "67000.12")) as [L _];
      [vm_compute; reflexivity..|].
    rewrite L. vm_compute; reflexivity.
Defined.

(** ** The text of a stream, read by read *)

Lemma fragment_contribution (s : jsstring) :
  forallb plain s = true -> contribution (bytes_of (fragment s)) = s.
Proof.
  intros P. unfold contribution, chunkDelta.
  rewrite (decode_fragment s P), (parse_fragment s P).
  cbn [bind get_field]. unfold obj_get. cbn [own].
  rewrite str_eqb_refl. unfold or_else. cbn [truthy].
  destruct s; reflexivity.
Qed.

Lemma fragments_contributions (deltas : list jsstring) :
  Forall (fun s => forallb plain s = true) deltas ->
  map contribution (map (fun s => bytes_of (fragment s)) deltas) = deltas.
Proof.
  intros F. rewrite map_map. induction F as [|s l Hs F IH]; [reflexivity|].
  cbn [map]. rewrite (fragment_contribution s Hs), IH. reflexivity.
Qed.

(** C4, amended.  The final accumulated text is the concatenation, in the
    order of arrival, of what each read contributes on its own: a read is
    decoded from a fresh decoder state and parsed as one JSON text, and
    contributes its [response], or nothing when that fails.  So a stream
    cut in two streams gives the two texts one after the other, and
    fragments [{"response":"s"}] with [s] in plain ASCII, delivered one
    whole fragment per read, give the concatenation of their texts.  The
    text is not invariant under other groupings of the same bytes into
    reads: the fragments [{"response":"He"}] and [{"response":"llo"}] give
    [Hello] as two reads and the empty text as one read with a newline
    between them, and [{"response":"é"}] gives [é] as one read and the
    empty text when the read boundary falls between the two bytes of the
    letter. *)
Theorem C4_text_by_read (reads : list (list byte)) (deltas : list jsstring)
    (st : State) :
  fst (readLoop reads None [] st)
  = Normal (List.concat (map contribution reads)) /\
  (forall reads1 reads2 text1 text2 st1 st2,
     reads = reads1 ++ reads2 ->
     fst (readLoop reads1 None [] st1) = Normal text1 ->
     fst (readLoop reads2 None [] st2) = Normal text2 ->
     fst (readLoop reads None [] st) = Normal (text1 ++ text2)) /\
  (Forall (fun s => forallb plain s = true) deltas ->
   fst (readLoop (map (fun s => bytes_of (fragment s)) deltas) None [] st)
   = Normal (List.concat deltas)) /\
  (fst (readLoop [He; llo] None [] st) = Normal (js "Hello") /\
   fst (readLoop [He ++ newline ++ llo] None [] st) = Normal []) /\
  (fst (readLoop [e_acute_head ++ e_acute_tail] None [] st) = Normal [233%N]
   /\ fst (readLoop [e_acute_head; e_acute_tail] None [] st) = Normal []).
Proof.
  split; [|split; [|split; [|split]]].
  - rewrite readLoop_result. reflexivity.
  - intros reads1 reads2 text1 text2 st1 st2 -> R1 R2.
    rewrite readLoop_result in *. simpl in *.
    injection R1 as <-. injection R2 as <-.
    rewrite map_app, concat_app. reflexivity.
  - intros F. rewrite readLoop_result, (fragments_contributions deltas F).
    reflexivity.
  - split; rewrite readLoop_result; vm_compute; reflexivity.
  - split; rewrite readLoop_result; vm_compute; reflexivity.
Qed.

Lemma C4_text_by_read_witness :
  fst (readLoop [He; llo] None [] initial) = Normal (js "He" ++ js "llo") /\
  fst (readLoop (map (fun s => bytes_of (fragment s)) [js "He"; js "llo"])
         None [] initial)
  = Normal (List.concat [js "He"; js "llo"]).
Proof.
  destruct (C4_text_by_read [He; llo] [js "He"; js "llo"] initial)
    as (_ & A & F & _).
  split.
  - apply (A [He] [llo] (js "He") (js "llo") initial initial);
      vm_compute; reflexivity.
  - apply F. repeat constructor.
Defined.
